(** * momentum: nutrition data-wrangling scripts

    A shallow embedding of the three batch scripts of the repository
    ([clean.py], the nutrition extractor; [clean2.py], the deduplicator;
    [generate.py], the synthetic food generator) together with the
    properties their specification states about them.

    Conventions of the embedding:
    - Python [str] values are Rocq [string]s; the alphabet is ASCII, so
      [\d] is [0-9] and whitespace is Python's ASCII whitespace.
    - Python [float] values are IEEE binary64 numbers, [spec_float] with
      precision 53 and maximal exponent 1024; [float(s)] rounds the decimal
      numeral to the nearest double, ties to even.
    - Library calls whose result the scripts only consume ([json.loads],
      [pd.read_csv], the HTTP request) are represented by their results. *)

From Stdlib Require Import ZArith NArith Ascii String List Bool Lia.
From Stdlib Require Import Floats.SpecFloat.
From stdpp Require Import base decidable option list gmap strings.

Local Open Scope string_scope.
Local Open Scope list_scope.

(** ** Python string primitives *)

Module PyStr.

(** [str.isspace] on one ASCII character: TAB..CR, FS..US and SPACE. *)
Definition is_space (c : ascii) : bool :=
  let n := nat_of_ascii c in
  ((9 <=? n)%nat && (n <=? 13)%nat) || ((28 <=? n)%nat && (n <=? 32)%nat).

Definition is_digit (c : ascii) : bool :=
  let n := nat_of_ascii c in (48 <=? n)%nat && (n <=? 57)%nat.

Definition digit_value (c : ascii) : N := N.of_nat (nat_of_ascii c - 48).

Definition chars (s : string) : list ascii := list_ascii_of_string s.
Definition text (cs : list ascii) : string := string_of_list_ascii cs.

Fixpoint lstrip (cs : list ascii) : list ascii :=
  match cs with
  | c :: t => if is_space c then lstrip t else cs
  | [] => []
  end.

Definition rstrip (cs : list ascii) : list ascii := rev (lstrip (rev cs)).

(** [s.strip()] *)
Definition strip (s : string) : string := text (rstrip (lstrip (chars s))).

(** [s.replace(old, new)] for a one-character [old]. *)
Fixpoint replace (old : ascii) (new : string) (s : string) : string :=
  match s with
  | EmptyString => EmptyString
  | String c t =>
      if Ascii.eqb c old then new ++ replace old new t
      else String c (replace old new t)
  end.

(** [s.split('\n')]: never empty, one more piece than separators. *)
Fixpoint split_on (sep : ascii) (cur : list ascii) (cs : list ascii) : list string :=
  match cs with
  | [] => [text (rev cur)]
  | c :: t =>
      if Ascii.eqb c sep then text (rev cur) :: split_on sep [] t
      else split_on sep (c :: cur) t
  end.

Definition split (sep : ascii) (s : string) : list string := split_on sep [] (chars s).

Definition startswith (c : ascii) (s : string) : bool :=
  match s with String d _ => Ascii.eqb d c | EmptyString => false end.

Definition endswith (c : ascii) (s : string) : bool :=
  match rev (chars s) with d :: _ => Ascii.eqb d c | [] => false end.

(** Truthiness of a string: non-empty. *)
Definition truthy (s : string) : bool :=
  match s with EmptyString => false | _ => true end.

(** [str(n)] for an integer. *)
Definition digit_char (d : N) : ascii := ascii_of_N (48 + d).

Fixpoint pos_digits (fuel : nat) (n : N) (acc : list ascii) : list ascii :=
  match fuel with
  | O => acc
  | S fuel' =>
      let acc' := digit_char (n mod 10) :: acc in
      if (n <? 10)%N then acc' else pos_digits fuel' (n / 10) acc'
  end.

Definition str_of_N (n : N) : string := text (pos_digits (S (N.to_nat (N.log2 n))) n []).

Definition str_of_Z (z : Z) : string :=
  match z with
  | Zneg p => String "-" (str_of_N (Npos p))
  | _ => str_of_N (Z.to_N z)
  end.

End PyStr.

(** ** Python [float(s)] *)

Module PyFloat.
Import PyStr.

Definition prec : Z := 53.
Definition emax : Z := 1024.

Abbreviation float := spec_float.

(** The double nearest to [(-1)^neg * m * 10^e]. *)
Definition of_decimal (neg : bool) (m : N) (e : Z) : float :=
  match m with
  | N0 => S754_zero neg
  | Npos p =>
      match e with
      | Zneg k => SFdiv prec emax (S754_finite neg p 0) (S754_finite false (10 ^ k) 0)
      | _ => binary_round prec emax neg (p * Z.to_pos (10 ^ e)) 0
      end
  end.

Definition of_Z (z : Z) : float := of_decimal (z <? 0)%Z (Z.abs_N z) 0.

(** Underscores may only stand between two digits. *)
Fixpoint underscores_ok (prev : option ascii) (cs : list ascii) : bool :=
  match cs with
  | [] => match prev with Some "_"%char => false | _ => true end
  | c :: t =>
      (if Ascii.eqb c "_" then
         match prev with Some p => is_digit p | None => false end
       else
         match prev with Some "_"%char => is_digit c | _ => true end)
      && underscores_ok (Some c) t
  end.

Definition drop_underscores (cs : list ascii) : list ascii :=
  filter (fun c => Ascii.eqb c "_" = false) cs.

Fixpoint span_digits (cs : list ascii) : list ascii * list ascii :=
  match cs with
  | c :: t =>
      if is_digit c then let '(ds, r) := span_digits t in (c :: ds, r)
      else ([], cs)
  | [] => ([], [])
  end.

Definition digits_value (ds : list ascii) : N :=
  fold_left (fun acc d => (10 * acc + digit_value d)%N) ds 0%N.

Definition take_sign (cs : list ascii) : bool * list ascii :=
  match cs with
  | "-"%char :: t => (true, t)
  | "+"%char :: t => (false, t)
  | _ => (false, cs)
  end.

Definition lower (c : ascii) : ascii :=
  let n := nat_of_ascii c in
  if (65 <=? n)%nat && (n <=? 90)%nat then ascii_of_nat (n + 32) else c.

(** ["inf"], ["infinity"] and ["nan"], in any letter case. *)
Definition parse_special (neg : bool) (cs : list ascii) : option float :=
  let w := text (map lower cs) in
  if String.eqb w "inf" || String.eqb w "infinity" then Some (S754_infinity neg)
  else if String.eqb w "nan" then Some S754_nan
  else None.

(** The exponent part: empty, or [e]/[E], an optional sign and digits. *)
Definition parse_exponent (cs : list ascii) : option Z :=
  match cs with
  | [] => Some 0%Z
  | c :: t =>
      if Ascii.eqb c "e" || Ascii.eqb c "E" then
        let '(eneg, t') := take_sign t in
        let '(ds, r) := span_digits t' in
        match ds, r with
        | _ :: _, [] =>
            let v := Z.of_N (digits_value ds) in
            Some (if eneg then (- v)%Z else v)
        | _, _ => None
        end
      else None
  end.

(** A decimal numeral: digits, optional point and fraction, exponent. *)
Definition parse_number (neg : bool) (cs : list ascii) : option float :=
  let '(ip, r1) := span_digits cs in
  let '(fp, r2) :=
    match r1 with
    | "."%char :: t => span_digits t
    | _ => ([], r1)
    end in
  match ip ++ fp with
  | [] => None
  | ds =>
      match parse_exponent r2 with
      | Some e => Some (of_decimal neg (digits_value ds) (e - Z.of_nat (length fp)))
      | None => None
      end
  end.

(** [float(s)]; [None] stands for [ValueError]. *)
Definition parse (s : string) : option float :=
  let cs := rstrip (lstrip (chars s)) in
  if underscores_ok None cs then
    let '(neg, body) := take_sign (drop_underscores cs) in
    match parse_special neg body with
    | Some f => Some f
    | None => parse_number neg body
    end
  else None.

(** Python's [==] on floats. *)
Definition eqb (a b : float) : bool := SFeqb a b.

(** A float that is not a NaN and has sign bit [s]. *)
Definition has_sign (s : bool) (f : float) : Prop :=
  match f with
  | S754_zero s' | S754_infinity s' | S754_finite s' _ _ => s' = s
  | S754_nan => False
  end.

(** What [==] decides: both zero, or the same infinity, or the same
    finite number; a NaN equals nothing. *)
Definition same (a b : float) : Prop :=
  match a, b with
  | S754_zero _, S754_zero _ => True
  | S754_infinity s1, S754_infinity s2 => s1 = s2
  | S754_finite s1 m1 e1, S754_finite s2 m2 e2 => s1 = s2 /\ m1 = m2 /\ e1 = e2
  | _, _ => False
  end.

End PyFloat.

(** ** clean.py: the nutrition extractor *)

Module Clean.
Import PyStr.

(** A nutrient value after normalisation: a float, or the raw string. *)
Inductive value :=
| VFloat (f : PyFloat.float)
| VStr (s : string).

(** Lines 31-34: [float(value.replace(',', ''))], the raw value on failure. *)
Definition normalize (raw : string) : value :=
  match PyFloat.parse (replace "," "" raw) with
  | Some f => VFloat f
  | None => VStr raw
  end.

(** Python's [==] between two normalised values. *)
Definition value_eqb (a b : value) : bool :=
  match a, b with
  | VFloat x, VFloat y => PyFloat.eqb x y
  | VStr x, VStr y => String.eqb x y
  | _, _ => false
  end.

(** The [nutritions] dict of one dish: nutrient name to value. *)
Abbreviation profile := (gmap string value).

(** Python's [==] between two dicts: same size, and every key of the
    left one is bound in the right one to an equal value. *)
Definition profile_eqb (a b : profile) : bool :=
  Nat.eqb (size a) (size b)
  && forallb (fun kv => match b !! kv.1 with
                        | Some w => value_eqb w kv.2
                        | None => false
                        end) (map_to_list a).

(** The diary export, as [json.loads] and the key lookups see it.  Food
    names, nutrient names and nutrient values are JSON strings.  An item
    that makes the row's processing raise (a missing key, a value of the
    wrong shape) is a [Bad...] item. *)
Inductive nutrient_item :=
| Nutrient (name : string) (value : string)
| BadNutrient.

Inductive dish_item :=
| Dish (name : string) (nutritions : list nutrient_item)
| BadDish.

Inductive meal_item :=
| Meal (dishes : option (list dish_item))   (* [None]: no 'dishes' key *)
| BadMeal.

(** One row of the file; [None] when [json.loads] raises. *)
Definition row := option (list meal_item).

(** Lines 28-35: the dict of a dish; [None] when a nutrient raises. *)
Fixpoint build_profile (acc : profile) (ns : list nutrient_item) : option profile :=
  match ns with
  | [] => Some acc
  | Nutrient k raw :: t => build_profile (<[k := normalize raw]> acc) t
  | BadNutrient :: _ => None
  end.

(** [unique_foods]: food name to its list of (profile, count), in
    insertion order. *)
Definition entry : Type := profile * nat.
Definition unique_foods : Type := list (string * list entry).

Fixpoint entries (uf : unique_foods) (name : string) : list entry :=
  match uf with
  | [] => []
  | (n, l) :: t => if String.eqb n name then l else entries t name
  end.

(** [unique_foods[name] = f(unique_foods[name])], creating the key. *)
Fixpoint update (name : string) (f : list entry -> list entry) (uf : unique_foods)
  : unique_foods :=
  match uf with
  | [] => [(name, f [])]
  | (n, l) :: t =>
      if String.eqb n name then (n, f l) :: t else (n, l) :: update name f t
  end.

(** Lines 40-44: index and content of the first entry equal to [p]. *)
Fixpoint find_profile (p : profile) (i : nat) (l : list entry) : option (nat * entry) :=
  match l with
  | [] => None
  | (q, c) :: t => if profile_eqb q p then Some (i, (q, c)) else find_profile p (S i) t
  end.

(** Lines 39-47 on the list of one food name. *)
Definition record_profile (p : profile) (l : list entry) : list entry :=
  match find_profile p 0 l with
  | Some (i, (q, c)) => <[i := (q, c + 1)]> l
  | None => l ++ [(p, 1)]
  end.

Definition add_dish (uf : unique_foods) (name : string) (p : profile) : unique_foods :=
  update name (record_profile p) uf.

(** Lines 24-47; the flag is [false] when an exception left the loop.
    What was accumulated before the exception stays in [unique_foods]. *)
Fixpoint process_dishes (uf : unique_foods) (ds : list dish_item) : unique_foods * bool :=
  match ds with
  | [] => (uf, true)
  | Dish name ns :: t =>
      match build_profile ∅ ns with
      | Some p => process_dishes (add_dish uf name p) t
      | None => (uf, false)
      end
  | BadDish :: _ => (uf, false)
  end.

(** Lines 22-47. *)
Fixpoint process_meals (uf : unique_foods) (ms : list meal_item) : unique_foods * bool :=
  match ms with
  | [] => (uf, true)
  | Meal None :: t => process_meals uf t
  | Meal (Some ds) :: t =>
      match process_dishes uf ds with
      | (uf', true) => process_meals uf' t
      | (uf', false) => (uf', false)
      end
  | BadMeal :: _ => (uf, false)
  end.

(** Lines 17-50: one row under its [try]/[except]. *)
Definition process_row (uf : unique_foods) (r : row) : unique_foods * bool :=
  match r with
  | Some ms => process_meals uf ms
  | None => (uf, false)
  end.

(** Lines 13-50: the whole file. *)
Definition extract (rows : list row) : unique_foods :=
  fold_left (fun uf r => (process_row uf r).1) rows [].

(** Indices of the rows for which an error is printed. *)
Definition failed_rows (rows : list row) : list nat :=
  (fold_left (fun '(uf, i, errs) r =>
                let '(uf', ok) := process_row uf r in
                (uf', S i, if ok then errs else errs ++ [i]))
             rows ([], 0, [])).2.

(** A cell of the output table. *)
Inductive cell :=
| CText (s : string)
| CInt (n : nat)
| CValue (v : value).

(** Lines 82-89: the dict of one output row. *)
Definition csv_row (name : string) (n : nat) (i : nat) (e : entry) : gmap string cell :=
  let base : gmap string cell :=
    <["Occurrences" := CInt e.2]>
      (<["Profile #" := CInt (if (1 <? n)%nat then i + 1 else 1)]>
         (<["Food Name" := CText name]> ∅)) in
  fold_left (fun r kv => <[kv.1 := CValue kv.2]> r) (map_to_list e.1) base.

(** Lines 79-90: the rows handed to [pd.DataFrame]. *)
Definition save_to_csv (uf : unique_foods) : list (gmap string cell) :=
  flat_map (fun '(name, l) => imap (csv_row name (length l)) l) uf.

(** *** Notions of the specification *)

(** The dishes a row contains, by (food name, profile); a dish whose
    nutrients cannot be read has no profile and is left out. *)
Definition dish_pairs (ds : list dish_item) : list (string * profile) :=
  flat_map (fun d => match d with
                     | Dish name ns =>
                         match build_profile ∅ ns with
                         | Some p => [(name, p)]
                         | None => []
                         end
                     | BadDish => []
                     end) ds.

Definition meal_pairs (ms : list meal_item) : list (string * profile) :=
  flat_map (fun m => match m with
                     | Meal (Some ds) => dish_pairs ds
                     | _ => []
                     end) ms.

(** A row is successfully parsed when processing it raises nothing. *)
Definition row_ok (r : row) : bool := (process_row [] r).2.

(** The dishes of all successfully parsed rows. *)
Definition parsed_dishes (rows : list row) : list (string * profile) :=
  flat_map (fun r => match r with
                     | Some ms => if row_ok r then meal_pairs ms else []
                     | None => []
                     end) rows.

(** The dishes that reach line 37: those of the successfully parsed
    rows, and in a row that fails the dishes before the failure. *)
Fixpoint dishes_before_failure (ds : list dish_item) : list (string * profile) * bool :=
  match ds with
  | [] => ([], true)
  | Dish name ns :: t =>
      match build_profile ∅ ns with
      | Some p => let '(l, ok) := dishes_before_failure t in ((name, p) :: l, ok)
      | None => ([], false)
      end
  | BadDish :: _ => ([], false)
  end.

Fixpoint meals_before_failure (ms : list meal_item) : list (string * profile) * bool :=
  match ms with
  | [] => ([], true)
  | Meal None :: t => meals_before_failure t
  | Meal (Some ds) :: t =>
      match dishes_before_failure ds with
      | (l, true) => let '(l', ok) := meals_before_failure t in (l ++ l', ok)
      | (l, false) => (l, false)
      end
  | BadMeal :: _ => ([], false)
  end.

Definition accumulated_dishes (rows : list row) : list (string * profile) :=
  flat_map (fun r => match r with
                     | Some ms => (meals_before_failure ms).1
                     | None => []
                     end) rows.

(** Two pairs are the same when the names are equal and the profiles
    compare equal. *)
Definition same_pair (a b : string * profile) : bool :=
  String.eqb a.1 b.1 && profile_eqb a.2 b.2.

(** The number of distinct pairs of a list: the pairs that are not the
    same as any earlier pair of the list. *)
Fixpoint distinct_from (earlier l : list (string * profile)) : nat :=
  match l with
  | [] => 0
  | x :: t =>
      (if existsb (fun y => same_pair y x) earlier then 0 else 1)
      + distinct_from (earlier ++ [x]) t
  end.

Definition distinct_pairs (l : list (string * profile)) : nat := distinct_from [] l.

(** The number of dishes of a list bearing a name. *)
Definition dishes_named (name : string) (l : list (string * profile)) : nat :=
  length (List.filter (fun d => String.eqb d.1 name) l).

(** The sum of the occurrence counts of a list of entries. *)
Definition total_occurrences (l : list entry) : nat :=
  foldr (fun e acc => e.2 + acc) 0 l.

(** *** Notions used in the proofs *)

(** Whether some entry of the list compares equal to [p] (line 41). *)
Definition known (p : profile) (l : list entry) : bool :=
  existsb (fun e => profile_eqb e.1 p) l.

(** The profiles recorded for a food name, in order. *)
Definition profiles (uf : unique_foods) (name : string) : list profile :=
  map fst (entries uf name).

(** The number of (food name, profile) entries of [unique_foods]. *)
Definition total_entries (uf : unique_foods) : nat :=
  foldr (fun nl acc => length nl.2 + acc) 0 uf.

(** Lines 37-47 for a list of dishes. *)
Definition accumulate (uf : unique_foods) (l : list (string * profile)) : unique_foods :=
  fold_left (fun uf d => add_dish uf d.1 d.2) l uf.

(** Python's [==] on values and on dicts, as relations. *)
Definition value_same (a b : value) : Prop :=
  match a, b with
  | VFloat x, VFloat y => PyFloat.same x y
  | VStr x, VStr y => x = y
  | _, _ => False
  end.

Definition profile_same (a b : profile) : Prop :=
  forall k, match a !! k, b !! k with
            | Some v, Some w => value_same v w
            | None, None => True
            | _, _ => False
            end.

(** What relates [unique_foods] to the dishes accumulated so far: every
    recorded profile is the profile of a dish, and every dish is recorded
    itself or compares equal to a recorded profile of its name. *)
Definition records (uf : unique_foods) (ds : list (string * profile)) : Prop :=
  (forall n q, In q (profiles uf n) -> In (n, q) ds)
  /\ (forall n q', In (n, q') ds ->
                  exists q, In q (profiles uf n) /\ (q = q' \/ profile_eqb q q' = true)).

(** The raw value of the last nutrient of a dish with a given name. *)
Fixpoint last_value (k : string) (ns : list nutrient_item) : option string :=
  match ns with
  | [] => None
  | Nutrient k' v :: t =>
      match last_value k t with
      | Some w => Some w
      | None => if String.eqb k' k then Some v else None
      end
  | BadNutrient :: t => last_value k t
  end.

(** No two profiles of a list compare equal, an earlier one on the left. *)
Definition pairwise_distinct (l : list profile) : Prop :=
  forall i j p q, (i < j)%nat -> l !! i = Some p -> l !! j = Some q -> profile_eqb p q = false.

End Clean.

(** ** clean2.py: the deduplicator *)

Module Clean2.
Import PyStr.

(** A row of the table [pd.read_csv] returns: the 'Food Name' cell
    ([None] when the cell is missing, pandas' NaN) and the cells of the
    other columns by column name. *)
Record row := Row { food_name : option string; fields : list (string * string) }.

Definition frame : Type := list row.

(** [df.duplicated(subset=['Food Name'], keep='first')]: a row is marked
    when its food name was met in an earlier row; missing names count as
    one name. *)
Fixpoint duplicated_from (seen : gset (option string)) (df : frame) : list bool :=
  match df with
  | [] => []
  | r :: t =>
      if bool_decide (food_name r ∈ seen) then true :: duplicated_from seen t
      else false :: duplicated_from ({[food_name r]} ∪ seen) t
  end.

Definition duplicated (df : frame) : list bool := duplicated_from ∅ df.

(** [df[mask]]: the rows whose mask bit is set, in order. *)
Fixpoint select (mask : list bool) (df : frame) : frame :=
  match mask, df with
  | b :: m, r :: t => if b then r :: select m t else select m t
  | _, _ => []
  end.

(** [df.drop_duplicates(subset=['Food Name'], keep='first')], which pandas
    computes as [df[~df.duplicated(subset, keep)]]; [keep] defaults to
    ['first']. *)
Definition drop_duplicates (df : frame) : frame := select (map negb (duplicated df)) df.

(** Lines 3-35; the returned table is the one written to the file. *)
Definition remove_duplicate_food_names (df : frame) : frame := drop_duplicates df.

(** [series == name] on one cell: a missing cell equals nothing. *)
Definition name_is (name : option string) (r : row) : bool :=
  match name, food_name r with
  | Some a, Some b => String.eqb a b
  | _, _ => false
  end.

(** [series.unique()]: the values in order of first appearance. *)
Fixpoint unique_from (seen : gset (option string)) (l : list (option string))
  : list (option string) :=
  match l with
  | [] => []
  | x :: t =>
      if bool_decide (x ∈ seen) then unique_from seen t
      else x :: unique_from ({[x]} ∪ seen) t
  end.

Definition unique (l : list (option string)) : list (option string) := unique_from ∅ l.

Record summary_row := Summary {
  s_food_name : option string;
  removed_count : nat;
  kept_profile : string;
  kept_occurrences : string
}.

Definition field_or_na (column : string) (r : row) : string :=
  match List.find (fun kv => String.eqb kv.1 column) (fields r) with
  | Some kv => kv.2
  | None => "N/A"
  end.

(** Lines 56-67. *)
Definition summarize (duplicates unique_df : frame) : list summary_row :=
  flat_map (fun name =>
              let food_duplicates := List.filter (name_is name) duplicates in
              match List.filter (name_is name) unique_df with
              | kept :: _ =>
                  [Summary name (length food_duplicates)
                     (field_or_na "Profile #" kept) (field_or_na "Occurrences" kept)]
              | [] => []
              end)
           (unique (map food_name duplicates)).

(** Lines 37-91; returns [(unique_df, summary_df)]. *)
Definition remove_duplicates_and_summarize (df : frame) : frame * list summary_row :=
  let duplicate_mask := duplicated df in
  let duplicates := select duplicate_mask df in
  let unique_df := select (map negb duplicate_mask) df in
  (unique_df, summarize duplicates unique_df).

(** Lines 93-109. *)
Definition simple_deduplicate (df : frame) : frame := drop_duplicates df.

(** *** The keep-first policy, from the words of the specification:
    of the rows sharing a food name only the first in input order is
    kept, so a row is kept exactly when no row before it has its name. *)
Fixpoint keep_first_from (before : list row) (df : frame) : frame :=
  match df with
  | [] => []
  | r :: t =>
      if forallb (fun r' => negb (bool_decide (food_name r' = food_name r))) before
      then r :: keep_first_from (before ++ [r]) t
      else keep_first_from (before ++ [r]) t
  end.

Definition keep_first (df : frame) : frame := keep_first_from [] df.

(** The names met so far, as the set pandas keeps and as the rows
    before the current one. *)
Definition seen_agrees (seen : gset (option string)) (before : list row) : Prop :=
  forall x, x ∈ seen <-> In x (map food_name before).

End Clean2.

(** ** generate.py: the synthetic food generator *)

Module Generate.
Import PyStr.

Definition EXISTING_FOODS : list string :=
  [ "Chicken Breast (Raw, Boneless, Skinless)";
    "Turkey Breast (Ground, 99% Lean)";
    "Salmon (Atlantic, Raw)";
    "Greek Yogurt (Non-Fat, Plain)";
    "Oats (Rolled, Dry)";
    "Brown Rice (Raw)";
    "Almonds (Raw)";
    "Whey Protein Isolate";
    "Broccoli (Raw)";
    "Tofu (Extra Firm)" ].

(** Lines 23-28; [None] is Python's [None]. *)
Definition escape_sql_string (text : option string) : string :=
  match text with
  | None => ""
  | Some t => replace "'" "''" t
  end.

(** A value of a decoded JSON object.  [JOther] stands for the values
    that are neither null, a string nor an integer (floats, booleans,
    arrays, objects) and carries the text [str()] gives for it. *)
Inductive jvalue :=
| JNull
| JStr (s : string)
| JInt (z : Z)
| JOther (shown : string).

Abbreviation food := (gmap string jvalue).

(** [str(value)] *)
Definition str (v : jvalue) : string :=
  match v with
  | JNull => "None"
  | JStr s => s
  | JInt z => str_of_Z z
  | JOther shown => shown
  end.

Definition is_numeric_char (c : ascii) : bool := is_digit c || Ascii.eqb c ".".

(** [re.sub(r'[^\d.]', '', s)] *)
Definition strip_non_numeric (s : string) : string :=
  text (List.filter is_numeric_char (chars s)).

(** A number of a generated record: the integer default, or a float. *)
Inductive number :=
| NInt (z : Z)
| NFloat (f : PyFloat.float).

(** Lines 49-60. *)
Definition clean_numeric_value (value : jvalue) (default : Z) : number :=
  match value with
  | JNull => NInt default
  | _ =>
      let cleaned := strip_non_numeric (str value) in
      if truthy cleaned then
        match PyFloat.parse cleaned with
        | Some f => NFloat f
        | None => NInt default
        end
      else NInt default
  end.

Record food_record := FoodRecord {
  name : string;
  brand : string;
  calories : number;
  protein : number;
  carbs : number;
  fat : number;
  fiber : number;
  sugar : number;
  serving_size : number;
  serving_unit : string;
  category : string;
  confidence : string;
  popularity : Z
}.

(** [food.get(key)] *)
Definition get (f : food) (key : string) : jvalue :=
  match f !! key with Some v => v | None => JNull end.

(** [food.get(key, default).strip()]; [None] when the value is not a
    string and [.strip()] raises. *)
Definition get_stripped (f : food) (key default : string) : option string :=
  match f !! key with
  | None => Some (strip default)
  | Some (JStr s) => Some (strip s)
  | Some _ => None
  end.

(** Lines 121-135; [None] when building the record raises. *)
Definition clean_food (f : food) (food_name : string) : option food_record :=
  match get_stripped f "brand" "Generic" with
  | None => None
  | Some b =>
      match get_stripped f "serving_unit" "g" with
      | None => None
      | Some u =>
          match get_stripped f "category" "Unknown" with
          | None => None
          | Some c =>
              Some {| name := food_name;
                      brand := b;
                      calories := clean_numeric_value (get f "calories") 0;
                      protein := clean_numeric_value (get f "protein") 0;
                      carbs := clean_numeric_value (get f "carbs") 0;
                      fat := clean_numeric_value (get f "fat") 0;
                      fiber := clean_numeric_value (get f "fiber") 0;
                      sugar := clean_numeric_value (get f "sugar") 0;
                      serving_size := clean_numeric_value (get f "serving_size") 100;
                      serving_unit := u;
                      category := c;
                      confidence := "estimated";
                      popularity := 50 |}
          end
      end
  end.

Definition categories : list string :=
  [ "High-protein snacks"; "Pre-workout meals"; "Post-workout recovery";
    "Low-carb options"; "Vegan fitness foods"; "Bulking foods"; "Cutting foods" ].

(** What the run does to the outside world, in order. *)
Inductive event :=
| Query (category : string)                            (* the HTTP request *)
| Checkpoint (file : string) (foods : list food_record)
| Sleep (seconds : nat).

(** The variables of [main]. *)
Record state := State {
  generated_foods : list food_record;
  existing_names : gset string;
  iteration : nat;
  empty_iterations : nat;
  log : list event
}.

Definition max_empty_iterations : nat := 10.

(** Lines 67-72. *)
Definition initial : state :=
  {| generated_foods := [];
     existing_names := list_to_set EXISTING_FOODS;
     iteration := 0;
     empty_iterations := 0;
     log := [] |}.

(** What [query_llm] does in one iteration. *)
Inductive reply :=
| Text (content : string)   (* returns the model's text *)
| Failed                    (* raises an [Exception] *)
| Interrupted.              (* the user interrupts: [KeyboardInterrupt] *)

Section Loop.

(** [json.loads] on a line; [None] when it raises. *)
Variable json_loads : string -> option food.

(** Lines 113-144 for one line: accepted records, seen names and
    [new_count]. *)
Definition consider (acc : list food_record * gset string * nat) (line : string)
  : list food_record * gset string * nat :=
  let '(foods, names, new_count) := acc in
  let line := strip line in
  if startswith "{" line && endswith "}" line then
    match json_loads line with
    | None => acc
    | Some f =>
        match get_stripped f "name" "" with
        | None => acc
        | Some food_name =>
            if truthy food_name && negb (bool_decide (food_name ∈ names)) then
              match clean_food f food_name with
              | Some cleaned => (foods ++ [cleaned], {[food_name]} ∪ names, S new_count)
              | None => acc
              end
            else acc
        end
    end
  else acc.

(** Lines 109-144. *)
Definition handle_response (st : state) (response : string)
  : list food_record * gset string * nat :=
  fold_left consider (split "010" (strip response))
            (generated_foods st, existing_names st, 0).

(** The number of new records an iteration yields. *)
Definition yield (st : state) (r : reply) : nat :=
  match r with
  | Text content => (handle_response st content).2
  | _ => 0
  end.

Definition checkpoint_file (n : nat) : string :=
  "generated_foods_iter_" ++ str_of_N (N.of_nat n) ++ ".json".

(** Lines 75-167: the body of the [while] loop; the flag is [true]
    when the body leaves the loop by [break].  Writing the checkpoint
    file and sleeping raise nothing. *)
Definition step (st : state) (r : reply) : state * bool :=
  let n := S (iteration st) in
  let query := Query (nth (n mod length categories) categories "") in
  match r with
  | Text content =>
      let '(foods, names, new_count) := handle_response st content in
      let empty := if (0 <? new_count)%nat then 0 else S (empty_iterations st) in
      let saved :=
        if (n mod 5 =? 0)%nat && negb (Nat.eqb (length foods) 0)
        then [Checkpoint (checkpoint_file n) foods] else [] in
      ({| generated_foods := foods;
          existing_names := names;
          iteration := n;
          empty_iterations := empty;
          log := log st ++ [query] ++ saved ++ [Sleep 2] |}, false)
  | Failed =>
      ({| generated_foods := generated_foods st;
          existing_names := existing_names st;
          iteration := n;
          empty_iterations := empty_iterations st;
          log := log st ++ [query; Sleep 3] |}, false)
  | Interrupted =>
      ({| generated_foods := generated_foods st;
          existing_names := existing_names st;
          iteration := n;
          empty_iterations := empty_iterations st;
          log := log st ++ [query] |}, true)
  end.

(** Lines 74-167: the [while] loop, for at most [fuel] iterations;
    [replies n] is what [query_llm] does in iteration [n].  The flag is
    [true] when the loop has ended. *)
Fixpoint run (fuel : nat) (replies : nat -> reply) (st : state) : state * bool :=
  if (empty_iterations st <? max_empty_iterations)%nat then
    match fuel with
    | O => (st, false)
    | S fuel' =>
        match step st (replies (S (iteration st))) with
        | (st', true) => (st', true)
        | (st', false) => run fuel' replies st'
        end
    end
  else (st, true).

Definition main (fuel : nat) (replies : nat -> reply) : state * bool :=
  run fuel replies initial.

End Loop.

(** The network calls of a log. *)
Definition queries (l : list event) : nat :=
  length (List.filter (fun e => match e with Query _ => true | _ => false end) l).

Definition checkpoints (l : list event) : list (string * list food_record) :=
  flat_map (fun e => match e with Checkpoint f foods => [(f, foods)] | _ => [] end) l.

Section Sql.

(** [str()] of a float, as an f-string prints it. *)
Variable float_str : PyFloat.float -> string.

Definition show (x : number) : string :=
  match x with
  | NInt z => str_of_Z z
  | NFloat f => float_str f
  end.

Definition quoted (s : string) : string := "'" ++ escape_sql_string (Some s) ++ "'".

(** Line 179. *)
Definition sql_line (f : food_record) : string :=
  "(" ++ quoted (name f) ++ ", " ++ quoted (brand f) ++ ", "
      ++ show (calories f) ++ ", " ++ show (protein f) ++ ", "
      ++ show (carbs f) ++ ", " ++ show (fat f) ++ ", "
      ++ show (fiber f) ++ ", " ++ show (sugar f) ++ ", "
      ++ show (serving_size f) ++ ", " ++ quoted (serving_unit f) ++ ", "
      ++ quoted (confidence f) ++ ", " ++ str_of_Z (popularity f) ++ ", "
      ++ quoted (category f) ++ "),".

Definition newline : string := String "010" "".

(** Lines 182-196. *)
Definition sql_header : string :=
  "INSERT INTO public.food_catalog (" ++ newline
  ++ "  name, " ++ newline ++ "  brand, " ++ newline
  ++ "  calories, " ++ newline ++ "  protein, " ++ newline
  ++ "  carbs, " ++ newline ++ "  fat, " ++ newline
  ++ "  fiber, " ++ newline ++ "  sugar, " ++ newline
  ++ "  serving_size, " ++ newline ++ "  serving_unit, " ++ newline
  ++ "  confidence, " ++ newline ++ "  popularity, " ++ newline
  ++ "  category" ++ newline ++ ") VALUES " ++ newline.

(** ["\n".join(lines)] *)
Definition join_lines (lines : list string) : string :=
  match lines with
  | [] => ""
  | x :: t => fold_left (fun acc y => (acc ++ newline ++ y)%string) t x
  end.

Fixpoint drop_commas (cs : list ascii) : list ascii :=
  match cs with
  | c :: t => if Ascii.eqb c "," then drop_commas t else cs
  | [] => []
  end.

(** [s.rstrip(',')] *)
Definition rstrip_commas (s : string) : string := text (rev (drop_commas (rev (chars s)))).

(** Lines 177-200, run when [generated_foods] is not empty. *)
Definition sql_output (foods : list food_record) : string :=
  rstrip_commas (sql_header ++ join_lines (map sql_line foods)) ++ ";".

End Sql.

(** The accepted records and the seen names fit together: the names of
    the records are pairwise distinct, none is empty or a pre-existing food,
    and the seen names are the pre-existing foods and the accepted names. *)
Definition consistent (foods : list food_record) (names : gset string) : Prop :=
  NoDup (map name foods)
  /\ Forall (fun f => name f <> "" /\ ~ In (name f) EXISTING_FOODS) foods
  /\ (forall x, x ∈ names <-> In x EXISTING_FOODS \/ In x (map name foods)).

(** A reply that is a text yielding no new record. *)
Definition quiet (json_loads : string -> option food) (st : state) (r : reply) : Prop :=
  exists content, r = Text content /\ (handle_response json_loads st content).2 = 0.

(** For the examples: a decoder that rejects every line, and a run in
    which [query_llm] does the same thing in every iteration. *)
Definition no_json : string -> option food := fun _ => None.
Definition always (r : reply) : nat -> reply := fun _ => r.

(** For the examples: the response line
    [{"name": "Protein Bar X", "calories": "1,200"}], the object
    [json.loads] decodes it to, and [json.loads] on this line alone. *)
Definition dq : string := String (ascii_of_nat 34) "".

Definition bar_line : string :=
  "{" ++ dq ++ "name" ++ dq ++ ": " ++ dq ++ "Protein Bar X" ++ dq ++ ", "
      ++ dq ++ "calories" ++ dq ++ ": " ++ dq ++ "1,200" ++ dq ++ "}".

Definition bar_food : food :=
  <["calories" := JStr "1,200"]> (<["name" := JStr "Protein Bar X"]> ∅).

Definition bar_json (line : string) : option food :=
  if String.eqb line bar_line then Some bar_food else None.

(** A run whose query raises in iteration [n] and returns the line above in
    every other iteration. *)
Definition failing_at (n : nat) : nat -> reply :=
  fun i => if Nat.eqb i n then Failed else Text bar_line.

(** A number that is not negative: an integer at least 0, or a float
    with a clear sign bit that is not a NaN. *)
Definition number_nonneg (x : number) : Prop :=
  match x with
  | NInt z => (0 <= z)%Z
  | NFloat f => PyFloat.has_sign false f
  end.

(** The number of points of a text, and what follows its first point. *)
Definition point_count (cs : list ascii) : nat :=
  length (List.filter (Ascii.eqb ".") cs).

Fixpoint after_point (cs : list ascii) : list ascii :=
  match cs with
  | [] => []
  | c :: t => if Ascii.eqb c "." then t else after_point t
  end.

(** The categories named by the queries of a log, in order. *)
Definition queried (l : list event) : list string :=
  flat_map (fun e => match e with Query c => [c] | _ => [] end) l.

(** Lines 215-218: the number of records of each category. *)
Definition category_counts (foods : list food_record) : gmap string nat :=
  fold_left (fun counts f =>
               <[category f := default 0 (counts !! category f) + 1]> counts)
            foods ∅.

(** Reading a SQL string literal after its opening quote: two quotes stand
    for one quote, a single quote ends the literal.  The result is the
    text of the literal and what follows it. *)
Fixpoint read_literal (cs : list ascii) : option (list ascii * list ascii) :=
  match cs with
  | [] => None
  | c :: t =>
      if Ascii.eqb c "'" then
        match t with
        | c' :: t' =>
            if Ascii.eqb c' "'" then
              match read_literal t' with
              | Some (s, rest) => Some (c :: s, rest)
              | None => None
              end
            else Some ([], t)
        | [] => Some ([], [])
        end
      else
        match read_literal t with
        | Some (s, rest) => Some (c :: s, rest)
        | None => None
        end
  end.

Definition read_quoted (cs : list ascii) : option (list ascii * list ascii) :=
  match cs with
  | c :: t => if Ascii.eqb c "'" then read_literal t else None
  | [] => None
  end.

End Generate.

(** * Properties *)

Import PyStr.
Local Open Scope string_scope.

(** ** Rounding keeps the sign *)

Lemma shr_1_nonneg mrs : (0 <= shr_m mrs)%Z -> (0 <= shr_m (shr_1 mrs))%Z.
Proof.
  destruct mrs as [m r s]; simpl.
  destruct m as [|p|p]; simpl; try lia.
  - destruct p; simpl; lia.
Qed.

Lemma iter_pos_shr_1_nonneg p mrs :
  (0 <= shr_m mrs)%Z -> (0 <= shr_m (SpecFloat.iter_pos shr_1 p mrs))%Z.
Proof.
  revert mrs. induction p as [p IH|p IH|]; intros mrs H; simpl.
  - apply IH, IH, shr_1_nonneg, H.
  - apply IH, IH, H.
  - apply shr_1_nonneg, H.
Qed.

Lemma shr_nonneg mrs e n : (0 <= shr_m mrs)%Z -> (0 <= shr_m (shr mrs e n).1)%Z.
Proof.
  intros H. unfold shr. destruct n; simpl; auto using iter_pos_shr_1_nonneg.
Qed.

Lemma shr_fexp_nonneg prec emax m e l :
  (0 <= m)%Z -> (0 <= shr_m (shr_fexp prec emax m e l).1)%Z.
Proof.
  intros H. unfold shr_fexp. apply shr_nonneg.
  destruct l as [|[]]; simpl; exact H.
Qed.

Lemma round_nearest_even_nonneg m l : (0 <= m)%Z -> (0 <= round_nearest_even m l)%Z.
Proof.
  intros H. unfold round_nearest_even. destruct l as [|[]]; try lia.
  destruct (Z.even m); lia.
Qed.

Lemma binary_round_aux_sign prec emax s m e l :
  (0 <= m)%Z -> PyFloat.has_sign s (binary_round_aux prec emax s m e l).
Proof.
  intros H. unfold binary_round_aux.
  pose proof (shr_fexp_nonneg prec emax m e l H) as H1.
  destruct (shr_fexp prec emax m e l) as [mrs' e']. simpl in H1.
  pose proof (shr_fexp_nonneg prec emax _ e' loc_Exact
                (round_nearest_even_nonneg _ (loc_of_shr_record mrs') H1)) as H2.
  destruct (shr_fexp prec emax _ e' loc_Exact) as [mrs'' e'']. simpl in H2.
  destruct (shr_m mrs'') as [|p|p]; simpl; try lia; auto.
  destruct (Z.leb _ _); reflexivity.
Qed.

Lemma of_decimal_sign s m e : PyFloat.has_sign s (PyFloat.of_decimal s m e).
Proof.
  unfold PyFloat.of_decimal. destruct m as [|p]; [reflexivity|].
  assert (Hr : forall q, PyFloat.has_sign s (binary_round PyFloat.prec PyFloat.emax s q 0)).
  { intros q. unfold binary_round.
    destruct (shl_align _ _ _) as [mz ez]. apply binary_round_aux_sign. lia. }
  destruct e as [|k|k]; try apply Hr.
  unfold SFdiv.
  destruct (SFdiv_core_binary _ _ _ _ _ _) as [[mz ez] lz] eqn:E.
  replace (xorb s false) with s by (destruct s; reflexivity).
  apply binary_round_aux_sign.
  unfold SFdiv_core_binary in E.
  match type of E with
  | (let '(q, r) := Z.div_eucl ?a ?b in _) = _ =>
      assert (Ha : (0 <= a)%Z);
      [| assert (Hq : (Z.div_eucl a b).1 = (a / b)%Z) by reflexivity;
         destruct (Z.div_eucl a b) as [q r] ]
  end.
  - destruct (_ - _ - _)%Z; [apply Pos2Z.is_nonneg | apply Z.shiftl_nonneg, Pos2Z.is_nonneg | reflexivity].
  - injection E as <- _ _. simpl in Hq. rewrite Hq. apply Z.div_pos; [exact Ha | apply Pos2Z.is_pos].
Qed.

(** ** Strings *)

Lemma chars_text cs : chars (text cs) = cs.
Proof. apply list_ascii_of_string_of_list_ascii. Qed.

Lemma text_chars s : text (chars s) = s.
Proof. apply string_of_list_ascii_of_string. Qed.

Lemma chars_app a b : chars (a ++ b) = (chars a ++ chars b)%list.
Proof. induction a as [|c a IH]; simpl; [reflexivity | now rewrite IH]. Qed.

Lemma lstrip_id cs : Forall (fun c => is_space c = false) cs -> lstrip cs = cs.
Proof. intros H. destruct H as [|c t Hc _]; simpl; [reflexivity | now rewrite Hc]. Qed.

Lemma rstrip_id cs : Forall (fun c => is_space c = false) cs -> rstrip cs = cs.
Proof.
  intros H. unfold rstrip. rewrite lstrip_id; [apply rev_involutive|].
  now apply Forall_rev.
Qed.

(** [replace] of one character by nothing is a filter. *)
Lemma replace_empty_chars old s :
  chars (replace old "" s) = List.filter (fun c => negb (Ascii.eqb c old)) (chars s).
Proof.
  induction s as [|c s IH]; simpl; [reflexivity|].
  destruct (Ascii.eqb c old); simpl; [exact IH | now rewrite IH].
Qed.

(** [replace] of one character by a string, character by character. *)
Lemma replace_chars old new s :
  chars (replace old new s)
  = flat_map (fun c => if Ascii.eqb c old then chars new else [c]) (chars s).
Proof.
  induction s as [|c s IH]; simpl; [reflexivity|].
  destruct (Ascii.eqb c old); simpl.
  - now rewrite chars_app, IH.
  - now rewrite IH.
Qed.

(** ** [float] on strings of digits and points *)

Lemma numeric_char_cases c :
  Generate.is_numeric_char c = true ->
  In c ["."; "0"; "1"; "2"; "3"; "4"; "5"; "6"; "7"; "8"; "9"]%char.
Proof.
  destruct c as [[] [] [] [] [] [] [] []]; intros H; try discriminate H;
    simpl; auto 20.
Qed.

Lemma numeric_not_space c : Generate.is_numeric_char c = true -> is_space c = false.
Proof.
  intros H. apply numeric_char_cases in H. simpl in H.
  repeat (destruct H as [<-|H]; [reflexivity|]). destruct H.
Qed.

Lemma parse_number_sign neg cs f :
  PyFloat.parse_number neg cs = Some f -> PyFloat.has_sign neg f.
Proof.
  unfold PyFloat.parse_number.
  destruct (PyFloat.span_digits cs) as [ip r1].
  destruct (match r1 with
            | [] => _
            | _ => _ end) as [fp r2].
  destruct (ip ++ fp)%list; [discriminate|].
  destruct (PyFloat.parse_exponent r2); [|discriminate].
  intros [= <-]. apply of_decimal_sign.
Qed.

Lemma parse_numeric_head neg c t :
  Generate.is_numeric_char c = true ->
  PyFloat.take_sign (c :: t) = (false, c :: t)
  /\ PyFloat.parse_special neg (c :: t) = None.
Proof.
  intros H. apply numeric_char_cases in H. simpl in H.
  repeat (destruct H as [<-|H]; [split; reflexivity|]). destruct H.
Qed.

Lemma parse_numeric_sign s f :
  Forall (fun c => Generate.is_numeric_char c = true) (chars s) ->
  PyFloat.parse s = Some f -> PyFloat.has_sign false f.
Proof.
  intros Hs. unfold PyFloat.parse.
  assert (Hsp : Forall (fun c => is_space c = false) (chars s)).
  { eapply Forall_impl; [exact Hs|]. intros c. apply numeric_not_space. }
  rewrite (lstrip_id _ Hsp), (rstrip_id _ Hsp).
  destruct (PyFloat.underscores_ok None (chars s)); [|discriminate].
  assert (Hd : Forall (fun c => Generate.is_numeric_char c = true)
                 (PyFloat.drop_underscores (chars s))).
  { unfold PyFloat.drop_underscores. apply Forall_forall. intros c Hc.
    apply list_elem_of_filter in Hc as [_ Hc].
    rewrite Forall_forall in Hs. apply Hs, Hc. }
  destruct (PyFloat.drop_underscores (chars s)) as [|c t].
  - simpl. discriminate.
  - inversion Hd as [|? ? Hc _]; subst.
    destruct (parse_numeric_head false c t Hc) as [-> Hsp'].
    rewrite Hsp'. apply parse_number_sign.
Qed.

Lemma strip_non_numeric_chars s :
  chars (Generate.strip_non_numeric s) = List.filter Generate.is_numeric_char (chars s).
Proof. unfold Generate.strip_non_numeric. apply chars_text. Qed.

Lemma clean_numeric_value_default value default :
  (0 <= default)%Z -> Generate.number_nonneg (Generate.clean_numeric_value value default).
Proof.
  intros Hd. unfold Generate.clean_numeric_value.
  assert (H : Generate.number_nonneg
                (let cleaned := Generate.strip_non_numeric (Generate.str value) in
                 if truthy cleaned then
                   match PyFloat.parse cleaned with
                   | Some f => Generate.NFloat f
                   | None => Generate.NInt default
                   end
                 else Generate.NInt default)).
  { cbv zeta. destruct (truthy _); [|exact Hd].
    destruct (PyFloat.parse _) as [f|] eqn:E; [|exact Hd].
    simpl. eapply parse_numeric_sign; [|exact E].
    rewrite strip_non_numeric_chars. apply Forall_forall. intros c Hc.
    apply list_elem_of_In, filter_In in Hc as [_ Hc]. exact Hc. }
  destruct value; [exact Hd | exact H ..].
Qed.

(** C10: [clean_numeric_value] never returns a negative number.  Whatever
    the value, with the fallback 0 of the nutrient fields and the fallback
    100 of the serving size the result is not negative; the text that is
    parsed keeps exactly the digits and points of [str(value)], so no minus
    sign reaches [float]; the string ["-5"] and the integer [-5] both give
    the float 5.0, and a missing value gives the fallback. *)
Theorem clean_numeric_value_nonneg :
  (forall value,
      Generate.number_nonneg (Generate.clean_numeric_value value 0)
      /\ Generate.number_nonneg (Generate.clean_numeric_value value 100))
  /\ (forall s, chars (Generate.strip_non_numeric s)
                = List.filter Generate.is_numeric_char (chars s))
  /\ Generate.is_numeric_char "-" = false
  /\ Generate.clean_numeric_value (Generate.JStr "-5") 0 = Generate.NFloat (PyFloat.of_Z 5)
  /\ Generate.clean_numeric_value (Generate.JInt (-5)) 0 = Generate.NFloat (PyFloat.of_Z 5)
  /\ Generate.clean_numeric_value Generate.JNull 0 = Generate.NInt 0
  /\ Generate.clean_numeric_value Generate.JNull 100 = Generate.NInt 100.
Proof.
  split; [|split; [|repeat split]].
  - intros value. split; apply clean_numeric_value_default; lia.
  - apply strip_non_numeric_chars.
Qed.

(** C5: a nutrient value string is converted by [float] after all its
    commas are removed, and is kept as it is when [float] rejects it;
    ["1,234"] becomes the float 1234.0 and ["n/a"] stays the string. *)
Theorem normalize_spec :
  (forall raw,
      Clean.normalize raw
      = match PyFloat.parse
                (text (List.filter (fun c => negb (Ascii.eqb c ",")) (chars raw))) with
        | Some f => Clean.VFloat f
        | None => Clean.VStr raw
        end)
  /\ Clean.normalize "1,234" = Clean.VFloat (PyFloat.of_Z 1234)
  /\ PyFloat.of_Z 1234 = S754_finite false (1234 * 2 ^ 42) (-42)
  /\ Clean.normalize "n/a" = Clean.VStr "n/a".
Proof.
  split; [|repeat split].
  intros raw. unfold Clean.normalize.
  now rewrite <- replace_empty_chars, text_chars.
Qed.

(** C8: in the generated SQL every string field of a record (name, brand,
    serving unit, confidence, category) is written between single quotes
    after [escape_sql_string], which replaces each single quote by two and
    leaves every other character as it is; [O'Brien's Bar] is written
    ['O''Brien''s Bar']. *)
Theorem escape_sql_string_spec :
  (forall s,
      chars (Generate.escape_sql_string (Some s))
      = flat_map (fun c => if Ascii.eqb c "'" then ["'"; "'"]%char else [c]) (chars s))
  /\ (forall s, Generate.quoted s = "'" ++ Generate.escape_sql_string (Some s) ++ "'")
  /\ (forall float_str f,
         let q := Generate.quoted in
         let n := Generate.show float_str in
         Generate.sql_line float_str f
         = "(" ++ q (Generate.name f) ++ ", " ++ q (Generate.brand f) ++ ", "
               ++ n (Generate.calories f) ++ ", " ++ n (Generate.protein f) ++ ", "
               ++ n (Generate.carbs f) ++ ", " ++ n (Generate.fat f) ++ ", "
               ++ n (Generate.fiber f) ++ ", " ++ n (Generate.sugar f) ++ ", "
               ++ n (Generate.serving_size f) ++ ", "
               ++ q (Generate.serving_unit f) ++ ", " ++ q (Generate.confidence f) ++ ", "
               ++ str_of_Z (Generate.popularity f) ++ ", "
               ++ q (Generate.category f) ++ "),")
  /\ Generate.quoted "O'Brien's Bar" = "'O''Brien''s Bar'".
Proof.
  split; [|repeat split].
  intros s. unfold Generate.escape_sql_string. apply replace_chars.
Qed.

(** ** The deduplicator *)

Section Deduplicator.
Import Clean2.

Lemma seen_agrees_empty : seen_agrees ∅ [].
Proof. intros x. simpl. set_solver. Qed.

Lemma seen_agrees_new seen before r :
  seen_agrees seen before -> seen_agrees ({[food_name r]} ∪ seen) (before ++ [r]).
Proof.
  intros H x. specialize (H x). rewrite map_app, in_app_iff. simpl.
  rewrite elem_of_union, elem_of_singleton. intuition congruence.
Qed.

Lemma seen_agrees_old seen before r :
  seen_agrees seen before -> food_name r ∈ seen -> seen_agrees seen (before ++ [r]).
Proof.
  intros H Hr x. rewrite map_app, in_app_iff. simpl. split.
  - intros Hx. left. now apply H.
  - intros [Hx|[<-|[]]]; [now apply H | exact Hr].
Qed.

Lemma fresh_name_spec before r :
  forallb (fun r' => negb (bool_decide (food_name r' = food_name r))) before = true
  <-> ~ In (food_name r) (map food_name before).
Proof.
  rewrite forallb_forall, in_map_iff. split.
  - intros Hall [r' [Heq Hin]]. apply Hall in Hin.
    apply negb_true_iff, bool_decide_eq_false in Hin. congruence.
  - intros Hno r' Hin. apply negb_true_iff, bool_decide_eq_false.
    intros Heq. apply Hno. exists r'. split; [congruence | exact Hin].
Qed.

Lemma fresh_name_iff seen before r :
  seen_agrees seen before ->
  forallb (fun r' => negb (bool_decide (food_name r' = food_name r))) before
  = negb (bool_decide (food_name r ∈ seen)).
Proof.
  intros H. apply eq_true_iff_eq.
  rewrite fresh_name_spec, negb_true_iff, bool_decide_eq_false, (H (food_name r)).
  reflexivity.
Qed.

Lemma drop_duplicates_from_keep_first seen before df :
  seen_agrees seen before ->
  select (map negb (duplicated_from seen df)) df = keep_first_from before df.
Proof.
  revert seen before. induction df as [|r t IH]; intros seen before H; simpl.
  - reflexivity.
  - rewrite (fresh_name_iff seen before r H).
    destruct (bool_decide (food_name r ∈ seen)) eqn:E; simpl.
    + apply IH, seen_agrees_old; [exact H|]. now apply bool_decide_eq_true in E.
    + f_equal. apply IH, seen_agrees_new, H.
Qed.

Lemma drop_duplicates_keep_first df : drop_duplicates df = keep_first df.
Proof. apply drop_duplicates_from_keep_first, seen_agrees_empty. Qed.

Lemma keep_first_from_sublist before df : sublist (keep_first_from before df) df.
Proof.
  revert before. induction df as [|r t IH]; intros before; simpl.
  - constructor.
  - destruct (forallb _ before); [apply sublist_skip | apply sublist_cons]; apply IH.
Qed.

Lemma keep_first_from_names before df x :
  In x (map food_name (keep_first_from before df))
  <-> In x (map food_name df) /\ ~ In x (map food_name before).
Proof.
  revert before. induction df as [|r t IH]; intros before; simpl.
  - tauto.
  - pose proof (fresh_name_spec before r) as Hb.
    destruct (forallb _ before) eqn:E; simpl;
      rewrite IH, map_app, in_app_iff; simpl.
    + assert (~ In (food_name r) (map food_name before)) by now apply Hb.
      destruct (decide (x = food_name r)); subst; intuition congruence.
    + assert (~ ~ In (food_name r) (map food_name before))
        by (rewrite <- Hb; congruence).
      destruct (decide (x = food_name r)); subst; intuition congruence.
Qed.

Lemma keep_first_from_NoDup before df : NoDup (map food_name (keep_first_from before df)).
Proof.
  revert before. induction df as [|r t IH]; intros before; simpl.
  - constructor.
  - destruct (forallb _ before); [|apply IH]. simpl. constructor; [|apply IH].
    rewrite list_elem_of_In, keep_first_from_names, map_app, in_app_iff. simpl. tauto.
Qed.

Lemma keep_first_from_id before df :
  NoDup (map food_name (before ++ df)) -> keep_first_from before df = df.
Proof.
  revert before. induction df as [|r t IH]; intros before H; simpl.
  - reflexivity.
  - assert (Hb : forallb (fun r' => negb (bool_decide (food_name r' = food_name r))) before
                 = true).
    { apply fresh_name_spec. intros Hin.
      rewrite map_app in H. apply NoDup_app in H as (_ & Hd & _).
      apply (Hd (food_name r)); [now apply list_elem_of_In|].
      simpl. apply elem_of_cons. now left. }
    rewrite Hb. f_equal. apply IH. now rewrite <- app_assoc.
Qed.

End Deduplicator.

(** C2: on every table the three deduplication modes return the same rows
    in the same order, the rows the keep-first policy keeps: a row is kept
    exactly when no earlier row has its food name.  The kept rows are a
    subsequence of the input, no two of them share a name, and every name
    of the input is the name of a kept row. *)
Theorem dedup_modes_keep_first :
  forall df : Clean2.frame,
    Clean2.remove_duplicate_food_names df = Clean2.keep_first df
    /\ (Clean2.remove_duplicates_and_summarize df).1 = Clean2.keep_first df
    /\ Clean2.simple_deduplicate df = Clean2.keep_first df
    /\ sublist (Clean2.keep_first df) df
    /\ NoDup (map Clean2.food_name (Clean2.keep_first df))
    /\ (forall x, In x (map Clean2.food_name df)
                  <-> In x (map Clean2.food_name (Clean2.keep_first df))).
Proof.
  intros df. repeat split.
  - apply drop_duplicates_keep_first.
  - apply drop_duplicates_keep_first.
  - apply drop_duplicates_keep_first.
  - apply keep_first_from_sublist.
  - apply keep_first_from_NoDup.
  - intros H. apply keep_first_from_names. split; [exact H|]. simpl. tauto.
  - intros H. now apply keep_first_from_names in H as [H _].
Qed.

(** C9: when no two rows of the table have the same food name, each mode
    of the deduplicator returns the table unchanged, row for row. *)
Theorem dedup_no_duplicates_unchanged :
  forall df : Clean2.frame,
    NoDup (map Clean2.food_name df) ->
    Clean2.remove_duplicate_food_names df = df
    /\ (Clean2.remove_duplicates_and_summarize df).1 = df
    /\ Clean2.simple_deduplicate df = df.
Proof.
  intros df H.
  assert (Clean2.drop_duplicates df = df) as E.
  { rewrite drop_duplicates_keep_first. now apply keep_first_from_id. }
  repeat split; exact E.
Qed.

Lemma dedup_no_duplicates_unchanged_witness :
  NoDup (map Clean2.food_name
           [Clean2.Row (Some "Oats") [("Profile #", "1")];
            Clean2.Row (Some "Rice") [("Profile #", "1")];
            Clean2.Row None []])
  /\ Clean2.remove_duplicate_food_names
       [Clean2.Row (Some "Oats") [("Profile #", "1")];
        Clean2.Row (Some "Rice") [("Profile #", "1")];
        Clean2.Row None []]
     = [Clean2.Row (Some "Oats") [("Profile #", "1")];
        Clean2.Row (Some "Rice") [("Profile #", "1")];
        Clean2.Row None []].
Proof.
  assert (H : NoDup (map Clean2.food_name
                       [Clean2.Row (Some "Oats") [("Profile #", "1")];
                        Clean2.Row (Some "Rice") [("Profile #", "1")];
                        Clean2.Row None []])).
  { apply (bool_decide_unpack _). reflexivity. }
  split; [exact H | exact (proj1 (dedup_no_duplicates_unchanged _ H))].
Defined.

(** ** Equality of nutrient profiles *)

Lemma float_eqb_same a b : PyFloat.eqb a b = true <-> PyFloat.same a b.
Proof.
  unfold PyFloat.eqb, SFeqb, SFcompare, PyFloat.same.
  destruct a as [[]|[]| |[] ma ea], b as [[]|[]| |[] mb eb];
    try (split; let H := fresh in
         intro H;
         solve [ discriminate H | exact I | reflexivity | destruct H
               | destruct H as (? & _); discriminate ]).
  all: change (Pos.compare_cont Eq ma mb) with (Pos.compare ma mb).
  all: destruct (Z.compare_spec ea eb) as [He|He|He];
    destruct (Pos.compare_spec ma mb) as [Hm|Hm|Hm]; simpl;
    split; try discriminate; try (intros (_ & ? & ?); lia); intros _; subst; auto.
Qed.

Lemma float_same_sym a b : PyFloat.same a b -> PyFloat.same b a.
Proof.
  destruct a, b; simpl; try tauto; try congruence. intros (-> & -> & ->). auto.
Qed.

Lemma float_same_trans a b c : PyFloat.same a b -> PyFloat.same b c -> PyFloat.same a c.
Proof.
  destruct a, b, c; simpl; try tauto; try congruence.
  intros (-> & -> & ->) (-> & -> & ->). auto.
Qed.

Lemma value_eqb_same a b : Clean.value_eqb a b = true <-> Clean.value_same a b.
Proof.
  destruct a, b; simpl; try (split; [discriminate | tauto]).
  - apply float_eqb_same.
  - apply String.eqb_eq.
Qed.

Lemma value_same_sym a b : Clean.value_same a b -> Clean.value_same b a.
Proof. destruct a, b; simpl; auto using float_same_sym. Qed.

Lemma value_same_trans a b c :
  Clean.value_same a b -> Clean.value_same b c -> Clean.value_same a c.
Proof.
  destruct a, b, c; simpl; try tauto; eauto using float_same_trans. congruence.
Qed.

(** The test the dict comparison makes is the pointwise relation. *)
Lemma profile_eqb_same (a b : Clean.profile) :
  Clean.profile_eqb a b = true <-> Clean.profile_same a b.
Proof.
  unfold Clean.profile_eqb, Clean.profile_same.
  rewrite andb_true_iff, Nat.eqb_eq, forallb_forall. split.
  - intros [Hsize Hall].
    assert (Hin : forall k v, a !! k = Some v ->
                    exists w, b !! k = Some w /\ Clean.value_same v w).
    { intros k v Hk. apply elem_of_map_to_list, list_elem_of_In, Hall in Hk. simpl in Hk.
      destruct (b !! k) as [w|]; [|discriminate].
      exists w. split; [reflexivity|]. now apply value_same_sym, value_eqb_same. }
    assert (Hdom : dom a = dom b).
    { apply set_subseteq_size_eq.
      - intros k Hk. apply elem_of_dom in Hk as [v Hv].
        apply Hin in Hv as (w & Hw & _). apply elem_of_dom. eauto.
      - rewrite !size_dom. lia. }
    intros k. destruct (a !! k) as [v|] eqn:Ea.
    + destruct (Hin k v Ea) as (w & -> & Hvw). exact Hvw.
    + apply not_elem_of_dom in Ea. rewrite Hdom in Ea.
      apply not_elem_of_dom in Ea. now rewrite Ea.
  - intros Hsame.
    assert (Hdom : dom a = dom b).
    { apply set_eq. intros k. rewrite !elem_of_dom. specialize (Hsame k).
      destruct (a !! k), (b !! k); try tauto; split; intros [? ?]; eauto; discriminate. }
    split.
    + now rewrite <- !size_dom, Hdom.
    + intros [k v] Hkv. apply list_elem_of_In, elem_of_map_to_list in Hkv. simpl.
      specialize (Hsame k). rewrite Hkv in Hsame.
      destruct (b !! k) as [w|]; [|tauto].
      now apply value_eqb_same, value_same_sym.
Qed.

Lemma profile_same_sym a b : Clean.profile_same a b -> Clean.profile_same b a.
Proof.
  intros H k. specialize (H k).
  destruct (a !! k), (b !! k); auto using value_same_sym.
Qed.

Lemma profile_same_trans a b c :
  Clean.profile_same a b -> Clean.profile_same b c -> Clean.profile_same a c.
Proof.
  intros H1 H2 k. specialize (H1 k). specialize (H2 k).
  destruct (a !! k), (b !! k), (c !! k); try tauto; eauto using value_same_trans.
Qed.

Lemma profile_eqb_sym a b : Clean.profile_eqb a b = true -> Clean.profile_eqb b a = true.
Proof. rewrite !profile_eqb_same. apply profile_same_sym. Qed.

Lemma profile_eqb_trans a b c :
  Clean.profile_eqb a b = true -> Clean.profile_eqb b c = true ->
  Clean.profile_eqb a c = true.
Proof. rewrite !profile_eqb_same. apply profile_same_trans. Qed.

(** ** The accumulation of the extractor *)

Section Accumulation.
Import Clean.

Lemma entries_update name f uf other :
  entries (update name f uf) other
  = if String.eqb name other then f (entries uf name) else entries uf other.
Proof.
  induction uf as [|[n l] t IH]; simpl.
  - destruct (String.eqb name other); reflexivity.
  - destruct (String.eqb_spec n name) as [->|Hn]; simpl.
    + destruct (String.eqb name other); reflexivity.
    + destruct (String.eqb_spec n other) as [->|Ho]; [|exact IH].
      destruct (String.eqb_spec name other) as [->|]; [contradiction | reflexivity].
Qed.

Lemma find_profile_none p i l : known p l = false -> find_profile p i l = None.
Proof.
  revert i. induction l as [|[q c] t IH]; intros i; simpl; [reflexivity|].
  destruct (profile_eqb q p); simpl; [discriminate | apply IH].
Qed.

Lemma find_profile_some p i l :
  known p l = true ->
  exists k q c,
    find_profile p i l = Some (i + k, (q, c))
    /\ l !! k = Some (q, c)
    /\ profile_eqb q p = true
    /\ (forall j e, (j < k)%nat -> l !! j = Some e -> profile_eqb e.1 p = false).
Proof.
  revert i. induction l as [|[q c] t IH]; intros i; simpl; [discriminate|].
  destruct (profile_eqb q p) eqn:E; simpl.
  - intros _. exists 0, q, c. rewrite Nat.add_0_r. repeat split; auto. intros j e Hj. lia.
  - intros H. destruct (IH (S i) H) as (k & q' & c' & Hf & Hl & He & Hb).
    exists (S k), q', c'. rewrite Hf. repeat split; auto.
    + f_equal. f_equal. lia.
    + intros [|j] e Hj; simpl.
      * intros [= <-]. exact E.
      * apply Hb. lia.
Qed.

(** Lines 39-47 on the list of one name: the first equal entry is
    counted once more, or the profile is appended with count 1. *)
Lemma record_profile_spec p l :
  if known p l then
    exists i q c,
      l !! i = Some (q, c)
      /\ profile_eqb q p = true
      /\ (forall j e, (j < i)%nat -> l !! j = Some e -> profile_eqb e.1 p = false)
      /\ record_profile p l = <[i := (q, c + 1)]> l
  else record_profile p l = (l ++ [(p, 1)])%list.
Proof.
  unfold record_profile. destruct (known p l) eqn:E.
  - destruct (find_profile_some p 0 l E) as (k & q & c & Hf & Hl & He & Hb).
    exists k, q, c. rewrite Hf. auto.
  - now rewrite (find_profile_none p 0 l E).
Qed.

Lemma map_fst_insert (l : list entry) i q c c' :
  l !! i = Some (q, c) -> map fst (<[i := (q, c')]> l) = map fst l.
Proof.
  revert i. induction l as [|e l IH]; intros [|i]; simpl; try discriminate.
  - now intros [= ->].
  - intros H. f_equal. exact (IH i H).
Qed.

Lemma record_profile_profiles p l :
  map fst (record_profile p l) = if known p l then map fst l else (map fst l ++ [p])%list.
Proof.
  pose proof (record_profile_spec p l) as H. destruct (known p l).
  - destruct H as (i & q & c & Hl & _ & _ & ->).
    now apply map_fst_insert with (c := c).
  - rewrite H, map_app. reflexivity.
Qed.

Lemma record_profile_length p l :
  length (record_profile p l) = length l + (if known p l then 0 else 1).
Proof.
  pose proof (record_profile_spec p l) as H. destruct (known p l).
  - destruct H as (i & q & c & _ & _ & _ & ->). rewrite length_insert. lia.
  - rewrite H, length_app. reflexivity.
Qed.

Lemma total_occurrences_app l l' :
  total_occurrences (l ++ l')%list = total_occurrences l + total_occurrences l'.
Proof. induction l as [|e l IH]; simpl; [reflexivity | rewrite IH; lia]. Qed.

Lemma total_occurrences_insert i q c l :
  l !! i = Some (q, c) ->
  total_occurrences (<[i := (q, c + 1)]> l) = S (total_occurrences l).
Proof.
  revert i. induction l as [|e l IH]; intros [|i] H; try discriminate H.
  - injection H as ->. unfold total_occurrences. simpl. lia.
  - change (e.2 + total_occurrences (<[i := (q, c + 1)]> l)
            = S (e.2 + total_occurrences l)).
    rewrite (IH i H). lia.
Qed.

(** Each dish adds one to the counts of its name. *)
Lemma record_profile_occurrences p l :
  total_occurrences (record_profile p l) = S (total_occurrences l).
Proof.
  pose proof (record_profile_spec p l) as H. destruct (known p l).
  - destruct H as (i & q & c & Hl & _ & _ & ->). now apply total_occurrences_insert.
  - rewrite H, total_occurrences_app. simpl. lia.
Qed.

Lemma total_entries_update name f uf :
  total_entries (update name f uf) + length (entries uf name)
  = total_entries uf + length (f (entries uf name)).
Proof.
  induction uf as [|[n l] t IH]; simpl; [lia|].
  destruct (String.eqb n name); simpl; lia.
Qed.

Lemma save_to_csv_length uf : length (save_to_csv uf) = total_entries uf.
Proof.
  unfold save_to_csv. induction uf as [|[n l] t IH]; simpl; [reflexivity|].
  rewrite length_app, length_imap, IH. reflexivity.
Qed.

Lemma total_entries_add_dish uf name p :
  total_entries (add_dish uf name p)
  = total_entries uf + (if known p (entries uf name) then 0 else 1).
Proof.
  unfold add_dish.
  pose proof (total_entries_update name (record_profile p) uf) as H.
  rewrite record_profile_length in H. lia.
Qed.

Lemma profiles_add_dish uf name p other :
  profiles (add_dish uf name p) other
  = if String.eqb name other
    then (if known p (entries uf name)
          then profiles uf name else (profiles uf name ++ [p])%list)
    else profiles uf other.
Proof.
  unfold profiles, add_dish. rewrite entries_update.
  destruct (String.eqb name other); [apply record_profile_profiles | reflexivity].
Qed.

Lemma known_profiles p l :
  known p l = true <-> exists q, In q (map fst l) /\ profile_eqb q p = true.
Proof.
  unfold known. rewrite existsb_exists. split.
  - intros ([q c] & Hin & He). exists q. split; [|exact He].
    apply in_map_iff. exists (q, c). auto.
  - intros (q & Hin & He). apply in_map_iff in Hin as ([q' c] & <- & Hin). eauto.
Qed.

(** *** The rows as lists of dishes *)

Lemma process_dishes_accumulate uf ds :
  process_dishes uf ds
  = (accumulate uf (dishes_before_failure ds).1, (dishes_before_failure ds).2).
Proof.
  revert uf. induction ds as [|[name ns|] t IH]; intros uf; simpl; try reflexivity.
  destruct (build_profile ∅ ns) as [p|]; [|reflexivity].
  rewrite IH. destruct (dishes_before_failure t). reflexivity.
Qed.

Lemma accumulate_app uf l l' : accumulate uf (l ++ l')%list = accumulate (accumulate uf l) l'.
Proof. apply fold_left_app. Qed.

Lemma process_meals_accumulate uf ms :
  process_meals uf ms
  = (accumulate uf (meals_before_failure ms).1, (meals_before_failure ms).2).
Proof.
  revert uf. induction ms as [|[[ds|]|] t IH]; intros uf; simpl; try reflexivity.
  - rewrite process_dishes_accumulate.
    destruct (dishes_before_failure ds) as [l [|]]; simpl; [|reflexivity].
    rewrite IH. destruct (meals_before_failure t). simpl. now rewrite accumulate_app.
  - apply IH.
Qed.

Lemma extract_from_accumulate uf rows :
  fold_left (fun uf r => (process_row uf r).1) rows uf
  = accumulate uf (accumulated_dishes rows).
Proof.
  revert uf. induction rows as [|[ms|] t IH]; intros uf; simpl.
  - reflexivity.
  - rewrite IH, process_meals_accumulate. simpl.
    unfold accumulated_dishes. simpl. now rewrite accumulate_app.
  - apply IH.
Qed.

Lemma extract_accumulate rows : extract rows = accumulate [] (accumulated_dishes rows).
Proof. apply extract_from_accumulate. Qed.

(** A row that is processed without an exception contributes all its
    dishes. *)
Lemma dishes_before_failure_ok ds :
  (dishes_before_failure ds).2 = true -> (dishes_before_failure ds).1 = dish_pairs ds.
Proof.
  induction ds as [|[name ns|] t IH]; simpl; try reflexivity; try discriminate.
  destruct (build_profile ∅ ns) as [p|]; [|discriminate].
  destruct (dishes_before_failure t) as [l ok]. simpl in *.
  intros H. now rewrite (IH H).
Qed.

Lemma meals_before_failure_ok ms :
  (meals_before_failure ms).2 = true -> (meals_before_failure ms).1 = meal_pairs ms.
Proof.
  induction ms as [|[[ds|]|] t IH]; simpl; try reflexivity; try discriminate.
  - pose proof (dishes_before_failure_ok ds) as Hd.
    destruct (dishes_before_failure ds) as [l [|]]; simpl in *; [|discriminate].
    destruct (meals_before_failure t) as [l' ok]. simpl in *.
    intros H. unfold meal_pairs in *. simpl. now rewrite (IH H), Hd.
  - exact IH.
Qed.

Lemma row_ok_meals ms : row_ok (Some ms) = (meals_before_failure ms).2.
Proof. unfold row_ok. simpl. now rewrite process_meals_accumulate. Qed.

(** *** Counting *)

Lemma records_known uf ds name p :
  records uf ds ->
  known p (entries uf name) = existsb (fun y => same_pair y (name, p)) ds.
Proof.
  intros [Ha Hb]. apply eq_true_iff_eq.
  rewrite known_profiles, existsb_exists. split.
  - intros (q & Hin & He). exists (name, q). split; [now apply Ha|].
    unfold same_pair. simpl. now rewrite String.eqb_refl.
  - intros ([n q'] & Hin & He). unfold same_pair in He. simpl in He.
    apply andb_true_iff in He as [Hn He]. apply String.eqb_eq in Hn as ->.
    destruct (Hb name q' Hin) as (q & Hq & [->|Hqq]).
    + eauto.
    + exists q. split; [exact Hq|]. eapply profile_eqb_trans; eassumption.
Qed.

Lemma records_add_dish uf ds name p :
  records uf ds -> records (add_dish uf name p) (ds ++ [(name, p)])%list.
Proof.
  intros [Ha Hb]. split.
  - intros n q. rewrite profiles_add_dish, in_app_iff.
    destruct (String.eqb_spec name n) as [->|Hn]; [|auto].
    destruct (known p (entries uf n)); [auto|].
    rewrite in_app_iff. simpl. intros [H|[<-|[]]]; auto.
  - intros n q'. rewrite in_app_iff. simpl. intros [Hin|[[= <- <-]|[]]].
    + destruct (Hb n q' Hin) as (q & Hq & Hor). exists q. split; [|exact Hor].
      rewrite profiles_add_dish.
      destruct (String.eqb_spec name n) as [->|Hn]; [|exact Hq].
      destruct (known p (entries uf n)); [exact Hq|]. apply in_app_iff. now left.
    + rewrite profiles_add_dish, String.eqb_refl.
      destruct (known p (entries uf name)) eqn:E.
      * apply known_profiles in E as (q & Hq & He). eauto.
      * exists p. split; [|now left]. apply in_app_iff. right. now left.
Qed.

Lemma records_empty : records [] [].
Proof. split; [intros n q [] | intros n q []]. Qed.

Lemma total_entries_accumulate uf ds l :
  records uf ds ->
  total_entries (accumulate uf l) = total_entries uf + distinct_from ds l.
Proof.
  revert uf ds. induction l as [|[name p] t IH]; intros uf ds H; simpl; [lia|].
  rewrite (IH _ _ (records_add_dish uf ds name p H)), total_entries_add_dish.
  rewrite (records_known uf ds name p H).
  destruct (existsb _ ds); lia.
Qed.

Lemma total_occurrences_accumulate uf l name :
  total_occurrences (entries (accumulate uf l) name)
  = total_occurrences (entries uf name) + dishes_named name l.
Proof.
  revert uf. induction l as [|[n p] t IH]; intros uf.
  - unfold dishes_named. simpl. lia.
  - simpl. rewrite IH. unfold add_dish, dishes_named. rewrite entries_update. simpl.
    destruct (String.eqb_spec n name) as [->|]; simpl;
      [rewrite record_profile_occurrences|]; lia.
Qed.

End Accumulation.

Lemma parsed_dishes_filter rows :
  Clean.parsed_dishes rows = Clean.accumulated_dishes (List.filter Clean.row_ok rows).
Proof.
  unfold Clean.parsed_dishes, Clean.accumulated_dishes.
  induction rows as [|[ms|] t IH]; simpl; [reflexivity| |exact IH].
  destruct (Clean.row_ok (Some ms)) eqn:E; simpl; [|exact IH].
  rewrite row_ok_meals in E. now rewrite (meals_before_failure_ok ms E), IH.
Qed.

(** A profile without NaN compares equal to itself. *)
Lemma profile_eqb_refl (p : Clean.profile) :
  (forall k, p !! k <> Some (Clean.VFloat S754_nan)) -> Clean.profile_eqb p p = true.
Proof.
  intros H. apply profile_eqb_same. intros k. specialize (H k).
  destruct (p !! k) as [[f|s]|]; simpl; auto.
  destruct f; simpl; auto.
Qed.

(** C4: when a dish is accumulated, the list of its food name either holds
    an entry whose profile compares equal to the dish's, and then the first
    such entry has its count raised by one and the list keeps its length, or
    holds none, and then the profile is appended with count 1; the lists of
    the other names are unchanged.  Two "Oats" dishes with the same
    nutrients share one entry with count 2, and a third with a different
    protein value gets an entry of its own with count 1. *)
Theorem add_dish_merges_equal_profiles :
  (forall uf name p,
      let l := Clean.entries uf name in
      let l' := Clean.entries (Clean.add_dish uf name p) name in
      (if Clean.known p l then
         exists i q c,
           l !! i = Some (q, c)
           /\ Clean.profile_eqb q p = true
           /\ (forall j e, (j < i)%nat -> l !! j = Some e -> Clean.profile_eqb e.1 p = false)
           /\ l' = <[i := (q, c + 1)]> l
           /\ length l' = length l
       else l' = (l ++ [(p, 1)])%list)
      /\ (forall other, other <> name ->
                        Clean.entries (Clean.add_dish uf name p) other
                        = Clean.entries uf other))
  /\ (let oats := [Clean.Nutrient "Calories" "389"; Clean.Nutrient "Protein" "16.9"] in
      let oats' := [Clean.Nutrient "Calories" "389"; Clean.Nutrient "Protein" "17"] in
      Clean.entries
        (Clean.extract [Some [Clean.Meal (Some [Clean.Dish "Oats" oats;
                                                 Clean.Dish "Oats" oats;
                                                 Clean.Dish "Oats" oats'])]])
        "Oats"
      = [(<["Protein" := Clean.normalize "16.9"]>
            (<["Calories" := Clean.normalize "389"]> ∅), 2);
         (<["Protein" := Clean.normalize "17"]>
            (<["Calories" := Clean.normalize "389"]> ∅), 1)]).
Proof.
  split.
  - intros uf name p l l'. split.
    + subst l l'. unfold Clean.add_dish. rewrite entries_update, String.eqb_refl.
      pose proof (record_profile_spec p (Clean.entries uf name)) as H.
      destruct (Clean.known p (Clean.entries uf name)); [|exact H].
      destruct H as (i & q & c & Hl & He & Hb & Hr).
      exists i, q, c. rewrite Hr, length_insert. auto.
    + intros other Ho. unfold Clean.add_dish. rewrite entries_update.
      destruct (String.eqb_spec name other); [congruence | reflexivity].
  - vm_compute. reflexivity.
Qed.

(** C3, as the code has it: the number of rows written by [save_to_csv]
    is the number of distinct (food name, profile) pairs among the dishes
    that were accumulated, and for every name the occurrence counts add up
    to the number of accumulated dishes bearing it.  The accumulated dishes
    are those of the rows processed without an exception and, in a row whose
    processing raises, the dishes before the exception; without the rows
    that raise they are the dishes of the successfully parsed rows. *)
Theorem extractor_counts_accumulated_dishes :
  forall rows,
    length (Clean.save_to_csv (Clean.extract rows))
    = Clean.distinct_pairs (Clean.accumulated_dishes rows)
    /\ (forall name,
           Clean.total_occurrences (Clean.entries (Clean.extract rows) name)
           = Clean.dishes_named name (Clean.accumulated_dishes rows))
    /\ Clean.parsed_dishes rows
       = Clean.accumulated_dishes (List.filter Clean.row_ok rows).
Proof.
  intros rows. rewrite save_to_csv_length, extract_accumulate. repeat split.
  - now rewrite (total_entries_accumulate [] [] _ records_empty).
  - intros name. now rewrite total_occurrences_accumulate.
  - apply parsed_dishes_filter.
Qed.

(** C3 fails as stated: a row with the dishes "Oats", a dish without a
    name, and "Oats" again raises at its second dish, after the first was
    accumulated.  The row is not successfully parsed and holds two "Oats"
    dishes, yet "Oats" is written as one row with one occurrence. *)
Lemma extractor_counts_parsed_rows_counterexample :
  Clean.row_ok
    (Some [Clean.Meal (Some [Clean.Dish "Oats" []; Clean.BadDish; Clean.Dish "Oats" []])])
  = false
  /\ length (Clean.save_to_csv
               (Clean.extract
                  [Some [Clean.Meal
                           (Some [Clean.Dish "Oats" []; Clean.BadDish; Clean.Dish "Oats" []])]]))
     <> Clean.distinct_pairs
          (Clean.parsed_dishes
             [Some [Clean.Meal
                      (Some [Clean.Dish "Oats" []; Clean.BadDish; Clean.Dish "Oats" []])]])
  /\ Clean.total_occurrences
       (Clean.entries
          (Clean.extract
             [Some [Clean.Meal
                      (Some [Clean.Dish "Oats" []; Clean.BadDish; Clean.Dish "Oats" []])]])
          "Oats")
     <> Clean.dishes_named "Oats"
          (Clean.parsed_dishes
             [Some [Clean.Meal
                      (Some [Clean.Dish "Oats" []; Clean.BadDish; Clean.Dish "Oats" []])]])
  /\ Clean.total_occurrences
       (Clean.entries
          (Clean.extract
             [Some [Clean.Meal
                      (Some [Clean.Dish "Oats" []; Clean.BadDish; Clean.Dish "Oats" []])]])
          "Oats")
     <> Clean.dishes_named "Oats"
          (Clean.meal_pairs
             [Clean.Meal (Some [Clean.Dish "Oats" []; Clean.BadDish; Clean.Dish "Oats" []])]).
Proof. vm_compute. repeat split; discriminate. Qed.

(** ** The generator *)

Section Generator.
Import Generate.

Variable json_loads : string -> option food.

Lemma truthy_nonempty s : truthy s = true <-> s <> "".
Proof. destruct s; simpl; split; congruence. Qed.

Lemma clean_food_name f food_name r : clean_food f food_name = Some r -> name r = food_name.
Proof.
  unfold clean_food.
  destruct (get_stripped f "brand" "Generic"); [|discriminate].
  destruct (get_stripped f "serving_unit" "g"); [|discriminate].
  destruct (get_stripped f "category" "Unknown"); [|discriminate].
  now intros [= <-].
Qed.

(** One line either changes nothing or accepts one record, whose name is
    not empty and was not seen. *)
Lemma consider_cases foods names count line :
  consider json_loads (foods, names, count) line = (foods, names, count)
  \/ exists r,
      consider json_loads (foods, names, count) line
      = ((foods ++ [r])%list, {[name r]} ∪ names, S count)
      /\ name r <> "" /\ name r ∉ names.
Proof.
  unfold consider.
  destruct (startswith "{" (strip line) && endswith "}" (strip line)); [|now left].
  destruct (json_loads (strip line)) as [f|]; [|now left].
  destruct (get_stripped f "name" "") as [food_name|]; [|now left].
  destruct (truthy food_name && negb (bool_decide (food_name ∈ names))) eqn:E; [|now left].
  destruct (clean_food f food_name) as [r|] eqn:Er; [|now left].
  apply clean_food_name in Er as Hn. subst food_name.
  apply andb_true_iff in E as [Ht Hs].
  apply truthy_nonempty in Ht. apply negb_true_iff, bool_decide_eq_false in Hs.
  right. exists r. auto.
Qed.

Lemma consistent_accept foods names r :
  consistent foods names -> name r <> "" -> name r ∉ names ->
  consistent (foods ++ [r])%list ({[name r]} ∪ names).
Proof.
  intros (Hnd & Hall & Hset) Hne Hnew.
  assert (Hout : ~ In (name r) EXISTING_FOODS /\ ~ In (name r) (map name foods)).
  { split; intros Hin; apply Hnew, Hset; auto. }
  destruct Hout as [Hex Hacc]. repeat split.
  - rewrite map_app. apply NoDup_app. repeat split.
    + exact Hnd.
    + intros x Hx Hx'. simpl in Hx'. apply list_elem_of_singleton in Hx' as ->.
      apply Hacc. now apply list_elem_of_In.
    + simpl. apply NoDup_singleton.
  - apply Forall_app. split; [exact Hall|]. constructor; [|constructor]. auto.
  - rewrite elem_of_union, elem_of_singleton, map_app, in_app_iff, (Hset x). simpl.
    intuition.
  - rewrite elem_of_union, elem_of_singleton, map_app, in_app_iff, (Hset x). simpl.
    intuition.
Qed.

Lemma consider_consistent acc line :
  consistent acc.1.1 acc.1.2 ->
  consistent (consider json_loads acc line).1.1 (consider json_loads acc line).1.2.
Proof.
  destruct acc as [[foods names] count]. intros H. simpl in H.
  destruct (consider_cases foods names count line) as [E|(r & E & Hne & Hnew)];
    rewrite E; simpl; [exact H | now apply consistent_accept].
Qed.

Lemma fold_consider_consistent lines acc :
  consistent acc.1.1 acc.1.2 ->
  consistent (fold_left (consider json_loads) lines acc).1.1
             (fold_left (consider json_loads) lines acc).1.2.
Proof.
  revert acc. induction lines as [|line t IH]; intros acc H; simpl; [exact H|].
  apply IH, consider_consistent, H.
Qed.

(** The count grows with each accepted record; when it has not grown the
    records and the names are as before. *)
Lemma fold_consider_count lines acc :
  let acc' := fold_left (consider json_loads) lines acc in
  (acc.2 <= acc'.2)%nat /\ (acc'.2 = acc.2 -> acc' = acc).
Proof.
  revert acc. induction lines as [|line t IH]; intros acc; simpl; [auto|].
  destruct (IH (consider json_loads acc line)) as [Hle Heq].
  destruct acc as [[foods names] count].
  destruct (consider_cases foods names count line) as [E|(r & E & _)];
    rewrite E in *; simpl in *.
  - auto.
  - split; [lia|]. intros Hc. lia.
Qed.

Lemma handle_response_consistent st content :
  consistent (generated_foods st) (existing_names st) ->
  consistent (handle_response json_loads st content).1.1
             (handle_response json_loads st content).1.2.
Proof. intros H. unfold handle_response. now apply fold_consider_consistent. Qed.

Lemma handle_response_quiet st content :
  (handle_response json_loads st content).2 = 0 ->
  handle_response json_loads st content = (generated_foods st, existing_names st, 0).
Proof.
  unfold handle_response. intros H.
  now apply (fold_consider_count _ (generated_foods st, existing_names st, 0)).
Qed.

Lemma step_consistent st r :
  consistent (generated_foods st) (existing_names st) ->
  consistent (generated_foods (step json_loads st r).1)
             (existing_names (step json_loads st r).1).
Proof.
  intros H. destruct r as [content| |]; simpl; try exact H.
  pose proof (handle_response_consistent st content H) as H'.
  destruct (handle_response json_loads st content) as [[foods names] count]. exact H'.
Qed.

Lemma run_consistent fuel replies st :
  consistent (generated_foods st) (existing_names st) ->
  consistent (generated_foods (run json_loads fuel replies st).1)
             (existing_names (run json_loads fuel replies st).1).
Proof.
  revert st. induction fuel as [|fuel IH]; intros st H; simpl.
  - destruct (_ <? _)%nat; exact H.
  - destruct (_ <? _)%nat; [|exact H].
    pose proof (step_consistent st (replies (S (iteration st))) H) as H'.
    destruct (step json_loads st (replies (S (iteration st)))) as [st' [|]];
      [exact H' | apply IH, H'].
Qed.

Lemma initial_consistent : consistent (generated_foods initial) (existing_names initial).
Proof.
  unfold consistent, initial. cbn [generated_foods existing_names map].
  split; [constructor | split; [constructor|]].
  intros x. rewrite elem_of_list_to_set, list_elem_of_In.
  split; [auto | intros [H|[]]; exact H].
Qed.

End Generator.

(** C6: in every run, at every point of the loop, the names of the
    accepted records are pairwise distinct, none is empty and none is a
    pre-existing food, and the seen names are exactly the pre-existing foods
    and the accepted names; a candidate without a name, with a blank name or
    with a name already seen leaves the records, the names and the count as
    they were.  Names are compared as strings, so names that differ in case
    only are distinct. *)
Theorem accepted_names_unique :
  forall json_loads,
    (forall fuel replies,
        let st := (Generate.main json_loads fuel replies).1 in
        NoDup (map Generate.name (Generate.generated_foods st))
        /\ Forall (fun f => Generate.name f <> ""
                            /\ ~ In (Generate.name f) Generate.EXISTING_FOODS)
                  (Generate.generated_foods st)
        /\ (forall x, x ∈ Generate.existing_names st
                      <-> In x Generate.EXISTING_FOODS
                          \/ In x (map Generate.name (Generate.generated_foods st))))
    /\ (forall acc line f,
           json_loads (strip line) = Some f ->
           f !! "name" = None
           \/ (exists s, f !! "name" = Some (Generate.JStr s)
                         /\ (strip s = "" \/ strip s ∈ acc.1.2)) ->
           Generate.consider json_loads acc line = acc).
Proof.
  intros json_loads. split.
  - intros fuel replies. apply run_consistent, initial_consistent.
  - intros [[foods names] count] line f Hf Hname. unfold Generate.consider.
    destruct (_ && _); [|reflexivity]. rewrite Hf.
    unfold Generate.get_stripped.
    destruct Hname as [->|(s & -> & Hs)]; [reflexivity|].
    destruct Hs as [->|Hs]; [reflexivity|].
    simpl in Hs. rewrite (bool_decide_eq_true_2 _ Hs), andb_false_r. reflexivity.
Qed.

Lemma accepted_names_unique_witness :
  Generate.consider (fun _ => Some ∅) ([], ∅, 0) "{}" = ([], ∅, 0).
Proof.
  apply (proj2 (accepted_names_unique (fun _ => Some ∅)) ([], ∅, 0) "{}" ∅).
  - reflexivity.
  - left. reflexivity.
Defined.

(** ** The loop of the generator *)

Section GeneratorLoop.
Import Generate.

Variable json_loads : string -> option food.

Lemma queries_app l l' : queries (l ++ l')%list = queries l + queries l'.
Proof. unfold queries. now rewrite List.filter_app, length_app. Qed.

Lemma checkpoints_app l l' : checkpoints (l ++ l')%list = (checkpoints l ++ checkpoints l')%list.
Proof. unfold checkpoints. apply flat_map_app. Qed.

(** Each iteration makes exactly one network call. *)
Lemma step_queries st r :
  queries (log (step json_loads st r).1) = S (queries (log st)).
Proof.
  destruct r as [content| |]; simpl.
  - destruct (handle_response json_loads st content) as [[foods names] count]. simpl.
    rewrite queries_app. destruct (_ && _); unfold queries; simpl; lia.
  - rewrite queries_app. unfold queries. simpl. lia.
  - rewrite queries_app. unfold queries. simpl. lia.
Qed.

Lemma step_iteration st r : iteration (step json_loads st r).1 = S (iteration st).
Proof.
  destruct r as [content| |]; simpl; try reflexivity.
  now destruct (handle_response json_loads st content) as [[foods names] count].
Qed.

(** Lines 146-151. *)
Lemma step_text_counter st content :
  empty_iterations (step json_loads st (Text content)).1
  = (if (0 <? yield json_loads st (Text content))%nat then 0 else S (empty_iterations st))
  /\ (step json_loads st (Text content)).2 = false.
Proof.
  simpl. now destruct (handle_response json_loads st content) as [[foods names] count].
Qed.

Lemma step_quiet st r :
  quiet json_loads st r ->
  exists st',
    step json_loads st r = (st', false)
    /\ generated_foods st' = generated_foods st
    /\ existing_names st' = existing_names st
    /\ empty_iterations st' = S (empty_iterations st).
Proof.
  intros (content & -> & Hq). simpl.
  rewrite (handle_response_quiet json_loads st content Hq). simpl. eauto.
Qed.

Lemma quiet_same st st' r :
  generated_foods st' = generated_foods st -> existing_names st' = existing_names st ->
  quiet json_loads st r -> quiet json_loads st' r.
Proof.
  intros Hf Hn (content & -> & Hq). exists content. split; [reflexivity|].
  unfold handle_response in *. now rewrite Hf, Hn.
Qed.

(** Line 74: with the counter at the threshold the loop is over. *)
Lemma run_done fuel replies st :
  (max_empty_iterations <= empty_iterations st)%nat ->
  run json_loads fuel replies st = (st, true).
Proof.
  intros H. apply Nat.ltb_ge in H. destruct fuel; simpl; now rewrite H.
Qed.

(** Quiet iterations up to the threshold end the loop. *)
Lemma run_quiet k : forall st replies fuel,
  k = max_empty_iterations - empty_iterations st ->
  (forall i, (i < k)%nat -> quiet json_loads st (replies (S (iteration st + i)))) ->
  (k <= fuel)%nat ->
  exists st',
    run json_loads fuel replies st = (st', true)
    /\ queries (log st') = queries (log st) + k
    /\ iteration st' = iteration st + k
    /\ generated_foods st' = generated_foods st.
Proof.
  induction k as [|k IH]; intros st replies fuel Hk Hq Hfuel.
  - exists st. rewrite run_done by lia. repeat split; lia.
  - destruct fuel as [|fuel]; [lia|]. simpl.
    assert (Hlt : (empty_iterations st <? max_empty_iterations)%nat = true)
      by (apply Nat.ltb_lt; lia).
    rewrite Hlt.
    assert (H0 : quiet json_loads st (replies (S (iteration st)))).
    { specialize (Hq 0). rewrite Nat.add_0_r in Hq. apply Hq. lia. }
    destruct (step_quiet st _ H0) as (st1 & Hs & Hf & Hn & He).
    pose proof (step_queries st (replies (S (iteration st)))) as Hqs.
    pose proof (step_iteration st (replies (S (iteration st)))) as Hit.
    rewrite Hs in *. simpl in Hqs, Hit.
    destruct (IH st1 replies fuel) as (st' & Hr & Hq' & Hi' & Hf').
    + lia.
    + intros i Hi. apply (quiet_same st); [exact Hf | exact Hn |].
      replace (S (iteration st1 + i)) with (S (iteration st + S i)) by lia.
      apply Hq. lia.
    + lia.
    + exists st'. rewrite Hr. repeat split; [lia | lia | congruence].
Qed.

(** Line 154-157: what an iteration adds to the checkpoints. *)
Lemma step_checkpoints st r :
  let st' := (step json_loads st r).1 in
  checkpoints (log st')
  = (checkpoints (log st)
     ++ match r with
        | Text _ =>
            if (iteration st' mod 5 =? 0)%nat && negb (Nat.eqb (length (generated_foods st')) 0)
            then [(checkpoint_file (iteration st'), generated_foods st')]
            else []
        | _ => []
        end)%list.
Proof.
  destruct r as [content| |]; simpl.
  - destruct (handle_response json_loads st content) as [[foods names] count]. simpl.
    rewrite checkpoints_app. f_equal. simpl.
    destruct (_ && _); reflexivity.
  - now rewrite checkpoints_app.
  - now rewrite checkpoints_app.
Qed.

End GeneratorLoop.

(** ** File names of the checkpoints *)

Lemma digit_value_char d : (d < 10)%N -> digit_value (digit_char d) = d.
Proof.
  intros H. unfold digit_value, digit_char.
  rewrite <- (N2Nat.id d) in *. set (n := N.to_nat d) in *.
  assert (Hn : (n < 10)%nat) by lia. clearbody n. clear H.
  do 10 (destruct n as [|n]; [reflexivity|]). lia.
Qed.

Lemma pos_digits_value fuel : forall n acc,
  (n < 2 ^ N.of_nat fuel)%N ->
  fold_left (fun a d => (10 * a + digit_value d)%N) (pos_digits fuel n acc) 0%N
  = fold_left (fun a d => (10 * a + digit_value d)%N) acc n.
Proof.
  induction fuel as [|fuel IH]; intros n acc Hf.
  - simpl in *. assert (n = 0%N) as -> by lia. reflexivity.
  - rewrite Nat2N.inj_succ, N.pow_succ_r' in Hf. simpl.
    destruct (N.ltb_spec n 10) as [Hn|Hn].
    + simpl. rewrite N.mod_small by exact Hn. now rewrite digit_value_char.
    + rewrite IH.
      * simpl. rewrite digit_value_char by (apply N.mod_lt; lia).
        f_equal. rewrite (N.div_mod n 10) at 3 by lia. reflexivity.
      * apply N.Div0.div_lt_upper_bound; lia.
Qed.

(** The decimal digits [str] writes for a natural number read back as the
    number. *)
Lemma str_of_N_value n : PyFloat.digits_value (chars (str_of_N n)) = n.
Proof.
  unfold str_of_N, PyFloat.digits_value. rewrite chars_text, pos_digits_value.
  - reflexivity.
  - rewrite Nat2N.inj_succ, N2Nat.id.
    destruct n as [|p]; [reflexivity|]. apply N.log2_spec. lia.
Qed.

Lemma chars_inj a b : chars a = chars b -> a = b.
Proof. intros H. rewrite <- (text_chars a), <- (text_chars b). now f_equal. Qed.

(** Different iterations write different files. *)
Lemma checkpoint_file_inj a b :
  Generate.checkpoint_file a = Generate.checkpoint_file b -> a = b.
Proof.
  unfold Generate.checkpoint_file. intros H.
  apply (f_equal chars) in H. rewrite !chars_app in H.
  apply app_inv_head, app_inv_tail in H.
  apply chars_inj, (f_equal (fun s => PyFloat.digits_value (chars s))) in H.
  rewrite !str_of_N_value in H. lia.
Qed.

(** C1, as the code has it: an iteration whose response is processed sets
    the counter to zero when it yields a new record and raises it by one
    when it yields none; an iteration whose query raises leaves the counter
    as it was and the loop goes on; an interrupt leaves the loop.  With the
    counter at 10 the loop is over and no query is made.  When the next
    iterations up to the threshold all process a response without a new
    record, the loop ends after exactly these iterations, one query each,
    whatever the number of iterations still allowed. *)
Theorem empty_iteration_counter :
  forall json_loads,
    (forall st content,
        Generate.empty_iterations (Generate.step json_loads st (Generate.Text content)).1
        = (if (0 <? Generate.yield json_loads st (Generate.Text content))%nat
           then 0 else S (Generate.empty_iterations st))
        /\ (Generate.step json_loads st (Generate.Text content)).2 = false)
    /\ (forall st,
           Generate.empty_iterations (Generate.step json_loads st Generate.Failed).1
           = Generate.empty_iterations st
           /\ (Generate.step json_loads st Generate.Failed).2 = false
           /\ (Generate.step json_loads st Generate.Interrupted).2 = true)
    /\ (forall fuel replies st,
           (10 <= Generate.empty_iterations st)%nat ->
           Generate.run json_loads fuel replies st = (st, true))
    /\ (forall st replies fuel,
           (forall i, (i < 10 - Generate.empty_iterations st)%nat ->
                      Generate.quiet json_loads st
                        (replies (S (Generate.iteration st + i)))) ->
           (10 - Generate.empty_iterations st <= fuel)%nat ->
           exists st',
             Generate.run json_loads fuel replies st = (st', true)
             /\ Generate.queries (Generate.log st')
                = Generate.queries (Generate.log st) + (10 - Generate.empty_iterations st)
             /\ Generate.iteration st'
                = Generate.iteration st + (10 - Generate.empty_iterations st)
             /\ Generate.generated_foods st' = Generate.generated_foods st).
Proof.
  intros json_loads. split; [|split; [|split]].
  - intros st content. apply step_text_counter.
  - intros st. repeat split.
  - intros fuel replies st H. now apply run_done.
  - intros st replies fuel Hq Hf. now apply (run_quiet json_loads _ st replies fuel eq_refl).
Qed.

Lemma empty_iteration_counter_witness :
  exists st',
    Generate.run Generate.no_json 25 (Generate.always (Generate.Text "")) Generate.initial = (st', true)
    /\ Generate.queries (Generate.log st') = 10
    /\ Generate.iteration st' = 10
    /\ Generate.generated_foods st' = [].
Proof.
  apply (proj2 (proj2 (proj2 (empty_iteration_counter Generate.no_json)))
           Generate.initial (Generate.always (Generate.Text "")) 25).
  - intros i _. exists "". split; reflexivity.
  - simpl. lia.
Defined.

(** C1 fails as stated: when every query raises, each of the first ten
    iterations yields no record, yet the counter stays at zero, the loop has
    not ended and the eleventh iteration makes another query. *)
Lemma empty_iteration_counter_counterexample :
  (forall n, Generate.yield Generate.no_json Generate.initial (Generate.always Generate.Failed n) = 0)
  /\ Generate.empty_iterations
       (Generate.step Generate.no_json Generate.initial Generate.Failed).1
     <> S (Generate.empty_iterations Generate.initial)
  /\ Generate.empty_iterations
       (Generate.main Generate.no_json 10 (Generate.always Generate.Failed)).1 = 0
  /\ Generate.queries
       (Generate.log (Generate.main Generate.no_json 10 (Generate.always Generate.Failed)).1) = 10
  /\ (Generate.main Generate.no_json 10 (Generate.always Generate.Failed)).2 = false
  /\ Generate.queries
       (Generate.log (Generate.main Generate.no_json 11 (Generate.always Generate.Failed)).1) = 11.
Proof. repeat split. simpl. discriminate. Qed.

(** C7, as the code has it: an iteration writes a checkpoint exactly when
    its response was processed, its number is a multiple of 5 and the
    accumulated records are not empty; the file is named by the iteration
    number and holds the records accumulated so far.  An iteration whose
    query raises or is interrupted writes none.  Different iterations write
    different files. *)
Theorem checkpoint_every_five :
  forall json_loads,
    (forall st r,
        let st' := (Generate.step json_loads st r).1 in
        Generate.iteration st' = S (Generate.iteration st)
        /\ Generate.checkpoints (Generate.log st')
           = (Generate.checkpoints (Generate.log st)
              ++ match r with
                 | Generate.Text _ =>
                     if (Generate.iteration st' mod 5 =? 0)%nat
                        && negb (Nat.eqb (length (Generate.generated_foods st')) 0)
                     then [(Generate.checkpoint_file (Generate.iteration st'),
                            Generate.generated_foods st')]
                     else []
                 | _ => []
                 end)%list)
    /\ (forall a b, Generate.checkpoint_file a = Generate.checkpoint_file b -> a = b)
    /\ Generate.checkpoint_file 5 = "generated_foods_iter_5.json"
    /\ Generate.checkpoint_file 10 = "generated_foods_iter_10.json".
Proof.
  intros json_loads. split; [|split; [|split]].
  - intros st r. split; [apply step_iteration | apply step_checkpoints].
  - apply checkpoint_file_inj.
  - reflexivity.
  - reflexivity.
Qed.

(** C7 fails as stated: when the first five responses hold no record,
    iteration 5 is reached with nothing accumulated and no checkpoint file
    is written; and when a record was accepted in iteration 1 and the query
    of iteration 5 raises, no checkpoint file is written either. *)
Lemma checkpoint_every_five_counterexample :
  (5 mod 5 = 0)%nat
  /\ Generate.iteration
       (Generate.main Generate.no_json 5 (Generate.always (Generate.Text ""))).1 = 5
  /\ ~ In (Generate.checkpoint_file 5)
         (map fst (Generate.checkpoints
                     (Generate.log
                        (Generate.main Generate.no_json 5
                           (Generate.always (Generate.Text ""))).1)))
  /\ Generate.iteration
       (Generate.main Generate.bar_json 5 (Generate.failing_at 5)).1 = 5
  /\ length (Generate.generated_foods
               (Generate.main Generate.bar_json 5 (Generate.failing_at 5)).1) = 1
  /\ ~ In (Generate.checkpoint_file 5)
         (map fst (Generate.checkpoints
                     (Generate.log
                        (Generate.main Generate.bar_json 5 (Generate.failing_at 5)).1))).
Proof. vm_compute. repeat split; tauto. Qed.

(** ** Examples of the specification *)

(** Rows named A, B, A, C, B: every mode keeps A, B, C in that order, and
    the summary reports one removed row for A and one for B. *)
Example dedup_example :
  let row n k := Clean2.Row (Some n) [("Profile #", k); ("Occurrences", "1")] in
  let df := [row "A" "1"; row "B" "1"; row "A" "2"; row "C" "1"; row "B" "2"] in
  Clean2.remove_duplicate_food_names df = [row "A" "1"; row "B" "1"; row "C" "1"]
  /\ Clean2.simple_deduplicate df = [row "A" "1"; row "B" "1"; row "C" "1"]
  /\ Clean2.remove_duplicates_and_summarize df
     = ([row "A" "1"; row "B" "1"; row "C" "1"],
        [Clean2.Summary (Some "A") 1 "1" "1"; Clean2.Summary (Some "B") 1 "1" "1"]).
Proof. vm_compute. repeat split. Qed.

(** The response line [{"name": "Protein Bar X", "calories": "1,200"}]
    yields a record with 1200.0 calories; met again, its name is already
    seen and it yields nothing. *)
Example generator_example :
  let st := (Generate.step Generate.bar_json Generate.initial
               (Generate.Text Generate.bar_line)).1 in
  map (fun f => (Generate.name f, Generate.calories f, Generate.brand f))
      (Generate.generated_foods st)
  = [("Protein Bar X", Generate.NFloat (PyFloat.of_Z 1200), "Generic")]
  /\ Generate.yield Generate.bar_json st (Generate.Text Generate.bar_line) = 0.
Proof. vm_compute. repeat split. Qed.

(** * Further properties *)

(** ** More on the deduplicator *)

Section DeduplicatorMore.
Import Clean2.

Lemma select_length_split mask df :
  length mask = length df ->
  length (select mask df) + length (select (map negb mask) df) = length df.
Proof.
  revert df. induction mask as [|b m IH]; intros [|r t]; simpl; try discriminate; auto.
  intros [= H]. specialize (IH t H). destruct b; simpl; lia.
Qed.

Lemma duplicated_from_length seen df : length (duplicated_from seen df) = length df.
Proof.
  revert seen. induction df as [|r t IH]; intros seen; simpl; [reflexivity|].
  destruct (bool_decide _); simpl; now rewrite IH.
Qed.

Lemma select_split_perm mask df :
  length mask = length df ->
  Permutation (select (map negb mask) df ++ select mask df)%list df.
Proof.
  revert df. induction mask as [|b m IH]; intros [|r t]; simpl; try discriminate; auto.
  intros [= H]. specialize (IH t H). destruct b; simpl.
  - rewrite <- Permutation_middle. now constructor.
  - now constructor.
Qed.

(** A marked row has the name of a row seen before it. *)
Lemma duplicated_from_seen seen df r :
  In r (select (duplicated_from seen df) df) ->
  food_name r ∈ seen \/ In (food_name r) (map food_name (select (map negb (duplicated_from seen df)) df)).
Proof.
  revert seen. induction df as [|r0 t IH]; intros seen; simpl; [tauto|].
  destruct (bool_decide (food_name r0 ∈ seen)) eqn:E; simpl.
  - intros [<-|H]; [left; now apply bool_decide_eq_true in E | now apply IH].
  - intros H. apply IH in H as [H|H]; [|auto].
    apply elem_of_union in H as [H|H]; [|auto].
    apply elem_of_singleton in H. right. left. congruence.
Qed.

(** The rows of one name among the kept rows: the first row of that name,
    unless the name was seen before. *)
Lemma kept_rows_of_name seen df x :
  List.filter (fun r => bool_decide (food_name r = x))
              (select (map negb (duplicated_from seen df)) df)
  = if bool_decide (x ∈ seen) then []
    else match List.find (fun r => bool_decide (food_name r = x)) df with
         | Some r => [r]
         | None => []
         end.
Proof.
  revert seen. induction df as [|r0 t IH]; intros seen; simpl.
  - now destruct (bool_decide (x ∈ seen)).
  - destruct (bool_decide (food_name r0 ∈ seen)) eqn:E; simpl.
    + rewrite IH. destruct (bool_decide (x ∈ seen)) eqn:Ex; [reflexivity|].
      destruct (bool_decide (food_name r0 = x)) eqn:Er; [|reflexivity].
      apply bool_decide_eq_true in E, Er. apply bool_decide_eq_false in Ex. congruence.
    + rewrite IH. apply bool_decide_eq_false in E.
      destruct (bool_decide (food_name r0 = x)) eqn:Er.
      * apply bool_decide_eq_true in Er. subst x.
        rewrite (bool_decide_eq_false_2 _ E).
        rewrite bool_decide_eq_true_2; [reflexivity|].
        apply elem_of_union. left. now apply elem_of_singleton.
      * apply bool_decide_eq_false in Er.
        destruct (bool_decide (x ∈ seen)) eqn:Ex.
        -- apply bool_decide_eq_true in Ex. rewrite bool_decide_eq_true_2; [reflexivity|].
           apply elem_of_union. now right.
        -- apply bool_decide_eq_false in Ex.
           rewrite bool_decide_eq_false_2; [reflexivity|].
           rewrite not_elem_of_union, not_elem_of_singleton. split; congruence.
Qed.

Lemma select_filter_split f mask df :
  length mask = length df ->
  length (List.filter f (select mask df)) + length (List.filter f (select (map negb mask) df))
  = length (List.filter f df).
Proof.
  revert df. induction mask as [|b m IH]; intros [|r t]; simpl; try discriminate; auto.
  intros [= H]. specialize (IH t H).
  destruct b; simpl; destruct (f r); simpl; lia.
Qed.

Lemma name_is_decide n r : name_is (Some n) r = bool_decide (food_name r = Some n).
Proof.
  unfold name_is. destruct (food_name r) as [m|].
  - destruct (String.eqb_spec n m) as [->|H].
    + now rewrite bool_decide_eq_true_2.
    + rewrite bool_decide_eq_false_2; [reflexivity | congruence].
  - now rewrite bool_decide_eq_false_2.
Qed.

Lemma filter_name_is n (l : frame) :
  List.filter (name_is (Some n)) l
  = List.filter (fun r => bool_decide (food_name r = Some n)) l.
Proof. apply filter_ext. intros r. apply name_is_decide. Qed.

Lemma find_name_is n (l : frame) :
  List.find (name_is (Some n)) l
  = List.find (fun r => bool_decide (food_name r = Some n)) l.
Proof.
  induction l as [|r t IH]; [reflexivity|].
  cbn [List.find]. now rewrite name_is_decide, IH.
Qed.

Lemma name_is_missing l : List.filter (name_is None) l = [].
Proof. induction l as [|r t IH]; simpl; [reflexivity | exact IH]. Qed.

Lemma unique_from_elem seen l x :
  In x (unique_from seen l) <-> In x l /\ x ∉ seen.
Proof.
  revert seen. induction l as [|y t IH]; intros seen; simpl; [tauto|].
  destruct (bool_decide (y ∈ seen)) eqn:E.
  - apply bool_decide_eq_true in E. rewrite IH. intuition congruence.
  - apply bool_decide_eq_false in E. simpl. rewrite IH.
    rewrite not_elem_of_union, not_elem_of_singleton.
    destruct (decide (y = x)); subst; intuition congruence.
Qed.

Lemma unique_from_NoDup seen l : NoDup (unique_from seen l).
Proof.
  revert seen. induction l as [|y t IH]; intros seen; simpl; [constructor|].
  destruct (bool_decide (y ∈ seen)); [apply IH|]. constructor; [|apply IH].
  rewrite list_elem_of_In, unique_from_elem.
  rewrite not_elem_of_union, not_elem_of_singleton. tauto.
Qed.

Lemma find_some_filter (f : row -> bool) l r :
  List.find f l = Some r -> (1 <= length (List.filter f l))%nat.
Proof.
  induction l as [|r0 t IH]; simpl; [discriminate|].
  destruct (f r0); simpl; [lia | exact IH].
Qed.

Lemma find_none_filter (f : row -> bool) l : List.find f l = None -> List.filter f l = [].
Proof.
  induction l as [|r0 t IH]; simpl; [reflexivity|].
  destruct (f r0); [discriminate | exact IH].
Qed.

End DeduplicatorMore.

Section DeduplicatorSummary.
Import Clean2.

Lemma kept_rows_first df x :
  List.filter (fun r => bool_decide (food_name r = x)) (drop_duplicates df)
  = match List.find (fun r => bool_decide (food_name r = x)) df with
    | Some r => [r]
    | None => []
    end.
Proof.
  unfold drop_duplicates, duplicated. rewrite kept_rows_of_name.
  rewrite bool_decide_eq_false_2; [reflexivity | apply not_elem_of_empty].
Qed.

Lemma duplicates_of_name df n :
  length (List.filter (name_is (Some n)) (select (duplicated df) df))
  + (match List.find (name_is (Some n)) df with Some _ => 1 | None => 0 end)
  = length (List.filter (name_is (Some n)) df).
Proof.
  rewrite <- (select_filter_split (name_is (Some n)) (duplicated df) df)
    by apply duplicated_from_length.
  f_equal. rewrite (filter_name_is n (select _ df)), find_name_is.
  change (select (map negb (duplicated df)) df) with (drop_duplicates df).
  rewrite kept_rows_first. now destruct (List.find _ df).
Qed.

(** The summary rows of one name. *)
Lemma summary_of_name df x :
  (fun name =>
     let food_duplicates := List.filter (name_is name) (select (duplicated df) df) in
     match List.filter (name_is name) (drop_duplicates df) with
     | kept :: _ =>
         [Summary name (length food_duplicates)
            (field_or_na "Profile #" kept) (field_or_na "Occurrences" kept)]
     | [] => []
     end) x
  = match x with
    | Some n =>
        match List.find (name_is (Some n)) df with
        | Some kept =>
            [Summary (Some n) (length (List.filter (name_is (Some n)) df) - 1)
               (field_or_na "Profile #" kept) (field_or_na "Occurrences" kept)]
        | None => []
        end
    | None => []
    end.
Proof.
  cbv beta zeta. destruct x as [n|]; [|now rewrite name_is_missing].
  pose proof (duplicates_of_name df n) as Hd.
  rewrite (filter_name_is n (drop_duplicates df)), kept_rows_first, <- find_name_is.
  destruct (List.find (name_is (Some n)) df) as [kept|]; [|reflexivity].
  do 2 f_equal. lia.
Qed.

Lemma summarize_by_name df :
  summarize (select (duplicated df) df) (drop_duplicates df)
  = flat_map (fun x => match x with
                       | Some n =>
                           match List.find (name_is (Some n)) df with
                           | Some kept =>
                               [Summary (Some n)
                                  (length (List.filter (name_is (Some n)) df) - 1)
                                  (field_or_na "Profile #" kept)
                                  (field_or_na "Occurrences" kept)]
                           | None => []
                           end
                       | None => []
                       end)
             (unique (map food_name (select (duplicated df) df))).
Proof. unfold summarize. apply flat_map_ext. intros x. apply summary_of_name. Qed.

Lemma summary_names_NoDup (g : option string -> list summary_row) l :
  NoDup l ->
  (forall x s, In s (g x) -> s_food_name s = x) ->
  (forall x, (length (g x) <= 1)%nat) ->
  NoDup (map s_food_name (flat_map g l)).
Proof.
  intros Hnd Hname Hlen. induction Hnd as [|x l Hx Hnd IH]; simpl; [constructor|].
  rewrite map_app. apply NoDup_app. split; [|split; [|exact IH]].
  - specialize (Hlen x). destruct (g x) as [|s [|s' t]]; simpl in *; try lia.
    + constructor.
    + apply NoDup_singleton.
  - intros y Hy Hy'. apply list_elem_of_In, in_map_iff in Hy as (s & <- & Hs).
    apply list_elem_of_In, in_map_iff in Hy' as (s' & Heq & Hs').
    apply in_flat_map in Hs' as (x' & Hx' & Hs').
    apply Hname in Hs, Hs'. apply Hx. apply list_elem_of_In. congruence.
Qed.

End DeduplicatorSummary.

(** X1: the kept rows and the rows marked as duplicates split the table:
    together they are its rows, so the number of removed rows is the number
    of rows less the number of kept rows, and every removed row has the
    name of a kept row. *)
Theorem dedup_partition :
  forall df : Clean2.frame,
    let kept := (Clean2.remove_duplicates_and_summarize df).1 in
    let removed := Clean2.select (Clean2.duplicated df) df in
    length kept + length removed = length df
    /\ Permutation (kept ++ removed)%list df
    /\ (forall r, In r removed -> In (Clean2.food_name r) (map Clean2.food_name kept)).
Proof.
  intros df kept removed. subst kept removed. simpl. repeat split.
  - rewrite Nat.add_comm. apply select_length_split, duplicated_from_length.
  - apply select_split_perm, duplicated_from_length.
  - intros r Hr. apply duplicated_from_seen in Hr as [Hr|Hr]; [|exact Hr].
    now apply not_elem_of_empty in Hr.
Qed.

(** X2: deduplicating a deduplicated table changes nothing, and its
    removal summary is empty. *)
Theorem dedup_idempotent :
  forall df : Clean2.frame,
    Clean2.remove_duplicate_food_names (Clean2.remove_duplicate_food_names df)
    = Clean2.remove_duplicate_food_names df
    /\ Clean2.remove_duplicates_and_summarize (Clean2.remove_duplicate_food_names df)
       = (Clean2.remove_duplicate_food_names df, []).
Proof.
  intros df. unfold Clean2.remove_duplicate_food_names.
  set (out := Clean2.drop_duplicates df).
  assert (Hnd : NoDup (map Clean2.food_name out)).
  { unfold out. rewrite drop_duplicates_keep_first. apply keep_first_from_NoDup. }
  assert (Hid : Clean2.drop_duplicates out = out).
  { rewrite drop_duplicates_keep_first. now apply keep_first_from_id. }
  split; [exact Hid|].
  unfold Clean2.remove_duplicates_and_summarize.
  change (Clean2.select (map negb (Clean2.duplicated out)) out)
    with (Clean2.drop_duplicates out).
  rewrite Hid.
  assert (Hd : Clean2.select (Clean2.duplicated out) out = []).
  { pose proof (select_length_split (Clean2.duplicated out) out
                  (duplicated_from_length ∅ out)) as Hl.
    change (Clean2.select (map negb (Clean2.duplicated out)) out)
      with (Clean2.drop_duplicates out) in Hl.
    rewrite Hid in Hl. destruct (Clean2.select _ out); [reflexivity | simpl in Hl; lia]. }
  rewrite Hd. reflexivity.
Qed.

(** X3: a row is kept exactly when it is the first row of the table with
    its food name. *)
Theorem dedup_keeps_first_row :
  forall (df : Clean2.frame) r,
    In r (Clean2.remove_duplicate_food_names df)
    <-> List.find (fun r' => bool_decide (Clean2.food_name r' = Clean2.food_name r)) df
        = Some r.
Proof.
  intros df r. unfold Clean2.remove_duplicate_food_names.
  pose proof (kept_rows_first df (Clean2.food_name r)) as H. split.
  - intros Hin.
    assert (Hf : In r (List.filter
                         (fun r' => bool_decide (Clean2.food_name r' = Clean2.food_name r))
                         (Clean2.drop_duplicates df))).
    { apply filter_In. split; [exact Hin | now apply bool_decide_eq_true_2]. }
    rewrite H in Hf. destruct (List.find _ df) as [r0|]; simpl in Hf; [|tauto].
    destruct Hf as [->|[]]. reflexivity.
  - intros Hf. rewrite Hf in H.
    assert (Hin : In r (List.filter
                          (fun r' => bool_decide (Clean2.food_name r' = Clean2.food_name r))
                          (Clean2.drop_duplicates df))) by (rewrite H; now left).
    now apply filter_In in Hin as [Hin _].
Qed.

(** X4: the removal summary has one row for each food name borne by two
    or more rows of the table and no other row; the row reports the number
    of rows with that name less one, and the 'Profile #' and 'Occurrences'
    cells of the first row with that name ('N/A' without such a column).
    Rows whose name is missing are never reported. *)
Theorem summary_reports_removed_rows :
  forall df : Clean2.frame,
    let summary := (Clean2.remove_duplicates_and_summarize df).2 in
    NoDup (map Clean2.s_food_name summary)
    /\ (forall s, In s summary ->
          exists n kept,
            Clean2.s_food_name s = Some n
            /\ List.find (Clean2.name_is (Some n)) df = Some kept
            /\ S (Clean2.removed_count s)
               = length (List.filter (Clean2.name_is (Some n)) df)
            /\ (1 <= Clean2.removed_count s)%nat
            /\ Clean2.kept_profile s = Clean2.field_or_na "Profile #" kept
            /\ Clean2.kept_occurrences s = Clean2.field_or_na "Occurrences" kept)
    /\ (forall n, (2 <= length (List.filter (Clean2.name_is (Some n)) df))%nat ->
                  In (Some n) (map Clean2.s_food_name summary)).
Proof.
  intros df summary. subst summary.
  unfold Clean2.remove_duplicates_and_summarize. cbn [snd].
  change (Clean2.select (map negb (Clean2.duplicated df)) df)
    with (Clean2.drop_duplicates df).
  rewrite summarize_by_name.
  set (removed := Clean2.select (Clean2.duplicated df) df).
  set (g := fun x : option string => match x with Some n => _ | None => _ end).
  assert (Hrows : forall x s,
             In x (Clean2.unique (map Clean2.food_name removed)) ->
             In s (g x) ->
             exists n kept,
               x = Some n /\ Clean2.s_food_name s = Some n
               /\ List.find (Clean2.name_is (Some n)) df = Some kept
               /\ S (Clean2.removed_count s)
                  = length (List.filter (Clean2.name_is (Some n)) df)
               /\ (1 <= Clean2.removed_count s)%nat
               /\ Clean2.kept_profile s = Clean2.field_or_na "Profile #" kept
               /\ Clean2.kept_occurrences s = Clean2.field_or_na "Occurrences" kept).
  { intros [n|] s Hx Hs; [|destruct Hs]. unfold g in Hs.
    destruct (List.find (Clean2.name_is (Some n)) df) as [kept|] eqn:Ef; [|destruct Hs].
    destruct Hs as [<-|[]]. exists n, kept.
    cbn [Clean2.s_food_name Clean2.removed_count Clean2.kept_profile
           Clean2.kept_occurrences].
    apply unique_from_elem in Hx as [Hx _]. apply in_map_iff in Hx as (r & Hr & Hin).
    assert (Hone : (1 <= length (List.filter (Clean2.name_is (Some n)) removed))%nat).
    { assert (In r (List.filter (Clean2.name_is (Some n)) removed)) as Hf.
      { apply filter_In. split; [exact Hin|]. rewrite name_is_decide.
        now apply bool_decide_eq_true_2. }
      destruct (List.filter _ removed); [destruct Hf | simpl; lia]. }
    pose proof (duplicates_of_name df n) as Hd. fold removed in Hd. rewrite Ef in Hd.
    repeat split; try reflexivity; try exact Ef; lia. }
  repeat split.
  - apply summary_names_NoDup.
    + apply unique_from_NoDup.
    + intros x s Hs. unfold g in Hs. destruct x as [n|]; [|destruct Hs].
      destruct (List.find _ df); [|destruct Hs]. destruct Hs as [<-|[]]. reflexivity.
    + intros x. unfold g. destruct x as [n|]; [|simpl; lia].
      destruct (List.find _ df); simpl; lia.
  - intros s Hs. apply in_flat_map in Hs as (x & Hx & Hs).
    destruct (Hrows x s Hx Hs) as (n & kept & _ & H). eauto.
  - intros n Hn. apply in_map_iff.
    pose proof (duplicates_of_name df n) as Hd. fold removed in Hd.
    destruct (List.filter (Clean2.name_is (Some n)) removed) as [|r t] eqn:Ef.
    { simpl in Hd. destruct (List.find _ df); lia. }
    assert (Hr : In r (List.filter (Clean2.name_is (Some n)) removed))
      by (rewrite Ef; now left).
    apply filter_In in Hr as [Hr Hrn]. rewrite name_is_decide in Hrn.
    apply bool_decide_eq_true in Hrn.
    destruct (List.find (Clean2.name_is (Some n)) df) as [kept|] eqn:Ek.
    2:{ apply find_none_filter in Ek. rewrite Ek in Hn. simpl in Hn. lia. }
    eexists. split; [|apply in_flat_map; exists (Some n); split].
    2:{ apply unique_from_elem. split; [|apply not_elem_of_empty].
        apply in_map_iff. exists r. auto. }
    2:{ unfold g. rewrite Ek. now left. }
    reflexivity.
Qed.

(** ** More on the extractor *)

Section ExtractorMore.
Import Clean.

Lemma accumulate_invariant (P : unique_foods -> Prop) uf l :
  P uf -> (forall uf n p, P uf -> P (add_dish uf n p)) -> P (accumulate uf l).
Proof.
  intros H0 Hstep. revert uf H0. induction l as [|[n p] t IH]; intros uf H0; simpl; auto.
Qed.

Lemma update_keys name f uf :
  (In name (map fst uf) /\ map fst (update name f uf) = map fst uf)
  \/ (~ In name (map fst uf) /\ map fst (update name f uf) = (map fst uf ++ [name])%list).
Proof.
  induction uf as [|[n l] t IH]; simpl.
  - right. split; [tauto | reflexivity].
  - destruct (String.eqb_spec n name) as [->|Hn]; simpl.
    + left. split; [now left | reflexivity].
    + destruct IH as [[Hin ->]|[Hout ->]].
      * left. split; [now right | reflexivity].
      * right. split; [intros [?|?]; congruence | reflexivity].
Qed.

Lemma update_keys_NoDup name f uf : NoDup (map fst uf) -> NoDup (map fst (update name f uf)).
Proof.
  intros H. destruct (update_keys name f uf) as [[_ ->]|[Hout ->]]; [exact H|].
  apply NoDup_app. split; [exact H|]. split.
  - intros x Hx Hx'. apply list_elem_of_singleton in Hx' as ->.
    apply Hout. now apply list_elem_of_In.
  - apply NoDup_singleton.
Qed.

Lemma update_keys_elem name f uf x :
  In x (map fst (update name f uf)) <-> x = name \/ In x (map fst uf).
Proof.
  destruct (update_keys name f uf) as [[Hin ->]|[Hout ->]].
  - intuition congruence.
  - rewrite in_app_iff. simpl. intuition congruence.
Qed.

Lemma accumulate_keys_NoDup uf l : NoDup (map fst uf) -> NoDup (map fst (accumulate uf l)).
Proof.
  intros H. apply accumulate_invariant; [exact H|].
  intros uf' n p H'. now apply update_keys_NoDup.
Qed.

Lemma accumulate_keys_elem uf l x :
  In x (map fst (accumulate uf l)) <-> In x (map fst uf) \/ In x (map fst l).
Proof.
  revert uf. induction l as [|[n p] t IH]; intros uf; simpl; [tauto|].
  rewrite IH. unfold add_dish. rewrite update_keys_elem. intuition congruence.
Qed.

Lemma record_profile_nonempty p l : record_profile p l <> [].
Proof.
  intros H. pose proof (record_profile_length p l) as Hl. rewrite H in Hl.
  destruct (known p l) eqn:E; simpl in Hl; [|lia].
  destruct l; [discriminate E | simpl in Hl; lia].
Qed.

Lemma update_Forall (P : list entry -> Prop) name f uf :
  Forall (fun nl => P nl.2) uf -> (forall l, l = [] \/ P l -> P (f l)) ->
  Forall (fun nl => P nl.2) (update name f uf).
Proof.
  intros H Hf. induction H as [|[n l] t Hl Ht IH]; simpl.
  - constructor; [|constructor]. apply Hf. now left.
  - destruct (String.eqb n name); constructor; auto. apply Hf. now right.
Qed.

Lemma entries_In uf name l : In (name, l) uf -> NoDup (map fst uf) -> entries uf name = l.
Proof.
  induction uf as [|[n l0] t IH]; simpl; [tauto|].
  intros [[= -> ->]|Hin] Hnd; [now rewrite String.eqb_refl|].
  apply NoDup_cons in Hnd as [Hn Hnd].
  destruct (String.eqb_spec n name) as [->|_]; [|auto].
  exfalso. apply Hn. apply list_elem_of_In, in_map_iff. exists (name, l). auto.
Qed.

(** *** Profiles of one name are pairwise different *)

Lemma lookup_map_fst (l : list entry) i p :
  map fst l !! i = Some p <-> exists c, l !! i = Some (p, c).
Proof.
  revert i. induction l as [|[q c] t IH]; intros [|i]; simpl.
  - split; [discriminate | intros [? ?]; discriminate].
  - split; [discriminate | intros [? ?]; discriminate].
  - split; [intros [= ->]; eauto | intros [c' [= -> _]]; reflexivity].
  - apply IH.
Qed.

Lemma known_false_all p (l : list entry) q :
  known p l = false -> In q (map fst l) -> profile_eqb q p = false.
Proof.
  intros Hk Hq. destruct (profile_eqb q p) eqn:E; [|reflexivity].
  assert (known p l = true) by (apply known_profiles; eauto). congruence.
Qed.

Lemma record_profile_pairwise p l :
  pairwise_distinct (map fst l) -> pairwise_distinct (map fst (record_profile p l)).
Proof.
  intros H. rewrite record_profile_profiles. destruct (known p l) eqn:E; [exact H|].
  intros i j a b Hij Hi Hj.
  assert (Hj' := Hj). apply lookup_lt_Some in Hj'. rewrite length_app in Hj'. simpl in Hj'.
  destruct (decide (j < length (map fst l))%nat) as [Hlt|Hge].
  - rewrite lookup_app_l in Hi by lia. rewrite lookup_app_l in Hj by lia.
    exact (H i j a b Hij Hi Hj).
  - assert (j = length (map fst l)) as -> by lia.
    rewrite lookup_app_l in Hi by lia.
    rewrite lookup_app_r, Nat.sub_diag in Hj by lia. injection Hj as <-.
    eapply known_false_all; [exact E|]. apply list_elem_of_In.
    eapply list_elem_of_lookup_2, Hi.
Qed.

Lemma record_profile_counts p l :
  Forall (fun e : entry => (1 <= e.2)%nat) l ->
  Forall (fun e : entry => (1 <= e.2)%nat) (record_profile p l).
Proof.
  intros H. pose proof (record_profile_spec p l) as Hs. destruct (known p l).
  - destruct Hs as (i & q & c & Hl & _ & _ & ->).
    apply Forall_insert; [exact H | simpl; lia].
  - rewrite Hs. apply Forall_app. split; [exact H|]. constructor; [simpl; lia | constructor].
Qed.

Lemma entries_add_dish uf name p other :
  entries (add_dish uf name p) other
  = if String.eqb name other then record_profile p (entries uf name) else entries uf other.
Proof. unfold add_dish. apply entries_update. Qed.

(** *** The rows for which an error is printed *)

Lemma process_row_flag uf r : (process_row uf r).2 = row_ok r.
Proof.
  unfold row_ok. destruct r as [ms|]; simpl; [|reflexivity].
  now rewrite !process_meals_accumulate.
Qed.

Lemma failed_rows_from rows : forall uf i errs,
  (fold_left (fun '(uf, i, errs) r =>
                let '(uf', ok) := process_row uf r in
                (uf', S i, if ok then errs else (errs ++ [i])%list))
             rows (uf, i, errs)).2
  = (errs ++ map fst (List.filter (fun ir => negb (row_ok ir.2))
                                  (combine (seq i (length rows)) rows)))%list.
Proof.
  induction rows as [|r t IH]; intros uf i errs; simpl.
  - now rewrite app_nil_r.
  - pose proof (process_row_flag uf r) as Hf.
    destruct (process_row uf r) as [uf' ok]. simpl in Hf. subst ok.
    rewrite IH. destruct (row_ok r); simpl; [reflexivity|].
    now rewrite <- app_assoc.
Qed.

(** *** The cells of an output row *)

Lemma fold_insert_lookup {A B} (g : A -> B) (l : list (string * A)) :
  forall (base : gmap string B) k,
    NoDup (map fst l) ->
    fold_left (fun r kv => <[kv.1 := g kv.2]> r) l base !! k
    = match (list_to_map l : gmap string A) !! k with
      | Some v => Some (g v)
      | None => base !! k
      end.
Proof.
  induction l as [|[k' v'] t IH]; intros base k Hnd; simpl; [reflexivity|].
  apply NoDup_cons in Hnd as [Hk' Hnd]. rewrite IH by exact Hnd.
  destruct (decide (k' = k)) as [->|Hne].
  - rewrite lookup_insert_eq.
    assert ((list_to_map t : gmap string A) !! k = None) as ->.
    { apply not_elem_of_list_to_map_1. intros H. apply Hk'.
      change (map fst t) with (fmap (M := list) fst t) in *. exact H. }
    now rewrite lookup_insert_eq.
  - rewrite !lookup_insert_ne by exact Hne. reflexivity.
Qed.

(** *** The dict of a dish *)

Lemma build_profile_lookup ns : forall acc p k,
  build_profile acc ns = Some p ->
  p !! k = match last_value k ns with
           | Some raw => Some (normalize raw)
           | None => acc !! k
           end.
Proof.
  induction ns as [|[k' v|] t IH]; intros acc p k; simpl.
  - now intros [= ->].
  - intros H. rewrite (IH _ _ k H).
    destruct (last_value k t); [reflexivity|].
    destruct (String.eqb_spec k' k) as [->|Hne].
    + now rewrite lookup_insert_eq.
    + now rewrite lookup_insert_ne.
  - discriminate.
Qed.

Lemma build_profile_none ns : forall acc,
  build_profile acc ns = None <-> In BadNutrient ns.
Proof.
  induction ns as [|[k' v|] t IH]; intros acc; simpl.
  - split; [discriminate | tauto].
  - rewrite IH. split; [auto | intros [H|H]; [discriminate | exact H]].
  - split; auto.
Qed.

End ExtractorMore.

(** X5: [unique_foods] has one key for each food name that was
    accumulated and no other key, no key twice, and every key holds at
    least one profile; so the printed number of unique food items is the
    number of distinct names among the accumulated dishes. *)
Theorem unique_foods_names :
  forall rows,
    NoDup (map fst (Clean.extract rows))
    /\ (forall name, In name (map fst (Clean.extract rows))
                     <-> In name (map fst (Clean.accumulated_dishes rows)))
    /\ (forall name l, In (name, l) (Clean.extract rows) ->
                       l <> [] /\ Clean.entries (Clean.extract rows) name = l).
Proof.
  intros rows. rewrite extract_accumulate.
  assert (Hnd : NoDup (map fst (Clean.accumulate [] (Clean.accumulated_dishes rows)))).
  { apply accumulate_keys_NoDup. constructor. }
  split; [exact Hnd|]. split.
  - intros name. rewrite accumulate_keys_elem. simpl. tauto.
  - intros name l Hin. split; [|now apply entries_In].
    assert (Hall : Forall (fun nl : string * list Clean.entry => nl.2 <> [])
                     (Clean.accumulate [] (Clean.accumulated_dishes rows))).
    { apply (accumulate_invariant (Forall (fun nl => nl.2 <> []))); [constructor|].
      intros uf n p H.
      apply (update_Forall (fun l0 => l0 <> []) n (Clean.record_profile p) uf H).
      intros l0 _. apply record_profile_nonempty. }
    rewrite Forall_forall in Hall. apply (Hall (name, l)). now apply list_elem_of_In.
Qed.

Lemma unique_foods_names_witness :
  [(∅ : Clean.profile, 1)] <> []
  /\ Clean.entries (Clean.extract [Some [Clean.Meal (Some [Clean.Dish "Oats" []])]]) "Oats"
     = [(∅, 1)].
Proof.
  apply (proj2 (proj2 (unique_foods_names
                         [Some [Clean.Meal (Some [Clean.Dish "Oats" []])]]))
           "Oats" [(∅, 1)]).
  left. reflexivity.
Defined.

(** X6: the profiles recorded for a food name are pairwise different: no
    profile compares equal to a later profile of the same name; and every
    recorded count is at least 1. *)
Theorem profiles_pairwise_distinct :
  forall rows name,
    Clean.pairwise_distinct (Clean.profiles (Clean.extract rows) name)
    /\ Forall (fun e : Clean.entry => (1 <= e.2)%nat)
              (Clean.entries (Clean.extract rows) name).
Proof.
  intros rows. rewrite extract_accumulate.
  apply (accumulate_invariant
           (fun uf => forall name,
                Clean.pairwise_distinct (Clean.profiles uf name)
                /\ Forall (fun e : Clean.entry => (1 <= e.2)%nat) (Clean.entries uf name))).
  - intros name. split; [|constructor]. intros i j p q _ Hi. destruct i; discriminate.
  - intros uf n p H name. unfold Clean.profiles. rewrite entries_add_dish.
    destruct (String.eqb n name); [|apply H].
    destruct (H n) as [Hp Hc]. split.
    + now apply record_profile_pairwise.
    + now apply record_profile_counts.
Qed.

(** X7: an error is printed for exactly the rows whose processing raises,
    in row order; whether a row raises does not depend on what was
    accumulated before it; and a row that cannot be decoded leaves
    [unique_foods] as if the row were absent, the rows after it being
    processed all the same. *)
Theorem failed_rows_are_rows_not_ok :
  forall rows,
    Clean.failed_rows rows
    = map fst (List.filter (fun ir => negb (Clean.row_ok ir.2))
                           (combine (seq 0 (length rows)) rows))
    /\ (forall uf r, (Clean.process_row uf r).2 = Clean.row_ok r)
    /\ (forall after,
           Clean.extract (rows ++ None :: after)%list = Clean.extract (rows ++ after)%list).
Proof.
  intros rows. split; [|split].
  - unfold Clean.failed_rows. now rewrite failed_rows_from.
  - apply process_row_flag.
  - intros after. rewrite !extract_accumulate.
    unfold Clean.accumulated_dishes. rewrite !flat_map_app. reflexivity.
Qed.

(** X8: the cells of an output row: a column named like a nutrient of the
    profile holds that nutrient's value, also when the nutrient is named
    'Food Name', 'Profile #' or 'Occurrences'; otherwise 'Food Name' holds
    the food name, 'Occurrences' the count, and 'Profile #' holds 1 when
    the name has a single profile and the 1-based rank of the profile when
    it has several; the row has no other cell. *)
Theorem csv_row_cells :
  forall name n i (e : Clean.entry) k,
    Clean.csv_row name n i e !! k
    = match e.1 !! k with
      | Some v => Some (Clean.CValue v)
      | None =>
          if String.eqb k "Food Name" then Some (Clean.CText name)
          else if String.eqb k "Profile #"
               then Some (Clean.CInt (if (1 <? n)%nat then i + 1 else 1))
               else if String.eqb k "Occurrences" then Some (Clean.CInt e.2)
                    else None
      end.
Proof.
  intros name n i e k. unfold Clean.csv_row. cbv zeta.
  rewrite (fold_insert_lookup Clean.CValue) by apply NoDup_fst_map_to_list.
  rewrite list_to_map_to_list. destruct (e.1 !! k); [reflexivity|].
  destruct (String.eqb_spec k "Food Name") as [->|H1]; [reflexivity|].
  destruct (String.eqb_spec k "Profile #") as [->|H2]; [reflexivity|].
  destruct (String.eqb_spec k "Occurrences") as [->|H3]; [reflexivity|].
  rewrite !lookup_insert_ne by congruence. apply lookup_empty.
Qed.

(** X9: the dict of a dish binds each nutrient name to the normalised
    value of the last nutrient of the dish with that name and binds nothing
    else; it cannot be built exactly when a nutrient item lacks its name or
    value. *)
Theorem build_profile_last_wins :
  forall ns,
    (Clean.build_profile ∅ ns = None <-> In Clean.BadNutrient ns)
    /\ (forall p k, Clean.build_profile ∅ ns = Some p ->
                    p !! k = Clean.normalize <$> Clean.last_value k ns).
Proof.
  intros ns. split; [apply build_profile_none|].
  intros p k H. rewrite (build_profile_lookup ns ∅ p k H).
  destruct (Clean.last_value k ns); [reflexivity | apply lookup_empty].
Qed.

Lemma build_profile_last_wins_witness :
  (<["Fat" := Clean.normalize "2"]> (<["Fat" := Clean.normalize "1"]> ∅) : Clean.profile)
    !! "Fat"
  = Clean.normalize <$> Clean.last_value "Fat" [Clean.Nutrient "Fat" "1"; Clean.Nutrient "Fat" "2"].
Proof.
  exact (proj2 (build_profile_last_wins
                  [Clean.Nutrient "Fat" "1"; Clean.Nutrient "Fat" "2"]) _ "Fat" eq_refl).
Defined.

(** ** More on the generator *)

Section GeneratorMore.
Import Generate.

Variable json_loads : string -> option food.

Lemma run_invariant (P : state -> Prop) fuel replies st :
  P st -> (forall st r, P st -> P (step json_loads st r).1) ->
  P (run json_loads fuel replies st).1.
Proof.
  intros H0 Hstep. revert st H0. induction fuel as [|fuel IH]; intros st H0; simpl.
  - destruct (_ <? _)%nat; exact H0.
  - destruct (_ <? _)%nat; [|exact H0].
    pose proof (Hstep st (replies (S (iteration st))) H0) as H1.
    destruct (step json_loads st (replies (S (iteration st)))) as [st' [|]];
      [exact H1 | apply IH, H1].
Qed.

Lemma queried_app l l' : queried (l ++ l')%list = (queried l ++ queried l')%list.
Proof. unfold queried. apply flat_map_app. Qed.

Lemma step_queried st r :
  queried (log (step json_loads st r).1)
  = (queried (log st)
     ++ [nth (S (iteration st) mod length categories) categories ""])%list.
Proof.
  destruct r as [content| |]; simpl.
  - destruct (handle_response json_loads st content) as [[foods names] count]. simpl.
    rewrite queried_app. f_equal. destruct (_ && _); reflexivity.
  - now rewrite queried_app.
  - now rewrite queried_app.
Qed.

(** One line accepts at most one record, at the end of the list. *)
Lemma fold_consider_grows lines acc :
  let acc' := fold_left (consider json_loads) lines acc in
  exists new,
    acc'.1.1 = (acc.1.1 ++ new)%list
    /\ length new + acc.2 = acc'.2
    /\ (length new <= length lines)%nat
    /\ (forall x, x ∈ acc'.1.2 <-> x ∈ acc.1.2 \/ In x (map name new)).
Proof.
  revert acc. induction lines as [|line t IH]; intros acc; simpl.
  - exists []. rewrite app_nil_r. simpl. split; [reflexivity|]. split; [reflexivity|].
    split; [lia|]. intros x. tauto.
  - destruct (IH (consider json_loads acc line)) as (new & Hf & Hc & Hl & Hn).
    destruct acc as [[foods names] count].
    destruct (consider_cases json_loads foods names count line) as [E|(r & E & _)];
      rewrite E in *; simpl in *.
    + exists new. split; [exact Hf|]. split; [exact Hc|]. split; [lia | exact Hn].
    + exists (r :: new). simpl. rewrite Hf, <- app_assoc. simpl.
      split; [reflexivity|]. split; [lia|]. split; [lia|]. intros x. split.
      * intros Hx. apply Hn in Hx as [Hx|Hx]; [|auto].
        apply elem_of_union in Hx as [Hx|Hx]; [|auto].
        apply elem_of_singleton in Hx. auto.
      * intros [Hx|[Hx|Hx]]; apply Hn.
        -- left. apply elem_of_union. now right.
        -- left. apply elem_of_union. left. now apply elem_of_singleton.
        -- now right.
Qed.

Lemma step_grows st r :
  exists new,
    generated_foods (step json_loads st r).1 = (generated_foods st ++ new)%list
    /\ length new = yield json_loads st r
    /\ (forall x, x ∈ existing_names (step json_loads st r).1
                  <-> x ∈ existing_names st \/ In x (map name new)).
Proof.
  destruct r as [content| |]; simpl.
  - unfold handle_response.
    destruct (fold_consider_grows (split "010" (strip content))
                (generated_foods st, existing_names st, 0)) as (new & Hf & Hc & _ & Hn).
    destruct (fold_left _ _ _) as [[foods names] count]. simpl in *.
    exists new. split; [exact Hf|]. split; [lia | exact Hn].
  - exists []. rewrite app_nil_r. simpl. split; [reflexivity|]. split; [reflexivity|].
    intros x. tauto.
  - exists []. rewrite app_nil_r. simpl. split; [reflexivity|]. split; [reflexivity|].
    intros x. tauto.
Qed.

Lemma step_prefix st r :
  generated_foods st `prefix_of` generated_foods (step json_loads st r).1.
Proof. destruct (step_grows st r) as (new & -> & _). now exists new. Qed.

(** *** The counter *)





Lemma run_iteration_le fuel replies st :
  (iteration (run json_loads fuel replies st).1 <= iteration st + fuel)%nat.
Proof.
  revert st. induction fuel as [|fuel IH]; intros st; simpl.
  - destruct (_ <? _)%nat; simpl; lia.
  - destruct (_ <? _)%nat; simpl; [|lia].
    pose proof (step_iteration json_loads st (replies (S (iteration st)))) as Hi.
    destruct (step json_loads st (replies (S (iteration st)))) as [st' [|]]; simpl in *.
    + lia.
    + specialize (IH st'). lia.
Qed.

End GeneratorMore.

Section GeneratorRuns.
Import Generate.

Variable json_loads : string -> option food.


Lemma run_prefix fuel replies st :
  generated_foods st `prefix_of` generated_foods (run json_loads fuel replies st).1.
Proof.
  apply (run_invariant json_loads
           (fun st' => generated_foods st `prefix_of` generated_foods st')).
  - reflexivity.
  - intros st' r H. etransitivity; [exact H | apply step_prefix].
Qed.

(** What holds of the checkpoints of a state. *)
Lemma step_snapshots st r :
  (NoDup (map fst (checkpoints (log st)))
   /\ forall file foods,
       In (file, foods) (checkpoints (log st)) ->
       exists n, file = checkpoint_file n /\ (n mod 5 = 0)%nat
                 /\ (1 <= n <= iteration st)%nat /\ foods <> []
                 /\ foods `prefix_of` generated_foods st) ->
  let st' := (step json_loads st r).1 in
  NoDup (map fst (checkpoints (log st')))
  /\ forall file foods,
      In (file, foods) (checkpoints (log st')) ->
      exists n, file = checkpoint_file n /\ (n mod 5 = 0)%nat
                /\ (1 <= n <= iteration st')%nat /\ foods <> []
                /\ foods `prefix_of` generated_foods st'.
Proof.
  intros [Hnd Hall] st'. subst st'.
  pose proof (step_checkpoints json_loads st r) as Hc. cbv zeta in Hc.
  pose proof (step_iteration json_loads st r) as Hi.
  pose proof (step_prefix json_loads st r) as Hp.
  set (st' := (step json_loads st r).1) in *.
  assert (Hold : forall file foods,
             In (file, foods) (checkpoints (log st)) ->
             exists n, file = checkpoint_file n /\ (n mod 5 = 0)%nat
                       /\ (1 <= n <= iteration st')%nat /\ foods <> []
                       /\ foods `prefix_of` generated_foods st').
  { intros file foods Hin. destruct (Hall file foods Hin) as (n & -> & Hm & Hn & Hne & Hpre).
    exists n. repeat split; auto; try lia. etransitivity; eassumption. }
  rewrite Hc.
  destruct r as [content| |]; try (rewrite app_nil_r; split; [exact Hnd | exact Hold]).
  destruct (_ && _) eqn:E; [|rewrite app_nil_r; split; [exact Hnd | exact Hold]].
  apply andb_true_iff in E as [E1 E2]. apply Nat.eqb_eq in E1.
  apply negb_true_iff, Nat.eqb_neq in E2. split.
  - rewrite map_app. apply NoDup_app. split; [exact Hnd|]. split; [|apply NoDup_singleton].
    intros x Hx Hx'. simpl in Hx'. apply list_elem_of_singleton in Hx' as ->.
    apply list_elem_of_In, in_map_iff in Hx as ([file foods] & Hfile & Hin). simpl in Hfile.
    destruct (Hall file foods Hin) as (n & -> & _ & Hn & _).
    apply checkpoint_file_inj in Hfile. lia.
  - intros file foods Hin. apply in_app_iff in Hin as [Hin|[[= <- <-]|[]]]; [now apply Hold|].
    exists (iteration st'). repeat split; auto; try lia.
    intros H0. rewrite H0 in E2. now apply E2.
Qed.

End GeneratorRuns.

(** X10: every iteration makes exactly one query, and the query of
    iteration n names the category at index n modulo 7 of the fixed list;
    so the number of queries is the number of iterations, which never
    exceeds the number of iterations allowed. *)
Theorem one_query_per_iteration :
  forall json_loads fuel replies,
    let st := (Generate.main json_loads fuel replies).1 in
    Generate.queried (Generate.log st)
    = map (fun n => nth (n mod 7) Generate.categories "") (seq 1 (Generate.iteration st))
    /\ Generate.queries (Generate.log st) = Generate.iteration st
    /\ (Generate.iteration st <= fuel)%nat.
Proof.
  intros json_loads fuel replies st. subst st. unfold Generate.main.
  split; [|split].
  - apply (run_invariant json_loads
             (fun st => Generate.queried (Generate.log st)
                        = map (fun n => nth (n mod 7) Generate.categories "")
                              (seq 1 (Generate.iteration st)))); [reflexivity|].
    intros st r H. rewrite step_queried, step_iteration, H, seq_S, map_app. reflexivity.
  - apply (run_invariant json_loads
             (fun st => Generate.queries (Generate.log st) = Generate.iteration st));
      [reflexivity|].
    intros st r H. now rewrite step_queries, step_iteration, H.
  - apply (run_iteration_le json_loads fuel replies Generate.initial).
Qed.



(** X12: an iteration only appends to the accepted records: it adds as
    many records as it yields, at most one for each line of the response,
    and the seen names grow by the names of these records; so the records
    at any point of a run are a prefix of the records at any later point. *)
Theorem generated_foods_grow :
  forall json_loads,
    (forall st r,
        exists new,
          Generate.generated_foods (Generate.step json_loads st r).1
          = (Generate.generated_foods st ++ new)%list
          /\ length new = Generate.yield json_loads st r
          /\ (forall x, x ∈ Generate.existing_names (Generate.step json_loads st r).1
                        <-> x ∈ Generate.existing_names st
                            \/ In x (map Generate.name new)))
    /\ (forall st content,
           (Generate.yield json_loads st (Generate.Text content)
            <= length (split "010" (strip content)))%nat)
    /\ (forall fuel replies st,
           Generate.generated_foods st
             `prefix_of` Generate.generated_foods (Generate.run json_loads fuel replies st).1).
Proof.
  intros json_loads. split; [|split].
  - intros st r. apply step_grows.
  - intros st content. simpl. unfold Generate.handle_response.
    destruct (fold_consider_grows json_loads (split "010" (strip content))
                (Generate.generated_foods st, Generate.existing_names st, 0))
      as (new & _ & Hc & Hl & _).
    simpl in Hc. lia.
  - intros fuel replies st. apply run_prefix.
Qed.

(** X13: in every run, every checkpoint written holds a non-empty prefix
    of the records accepted by the end of the run, its file is named by an
    iteration number that is a multiple of 5 and not beyond the current
    iteration, and no two checkpoints of the run have the same file name:
    no checkpoint is overwritten. *)
Theorem checkpoints_are_snapshots :
  forall json_loads fuel replies,
    let st := (Generate.main json_loads fuel replies).1 in
    NoDup (map fst (Generate.checkpoints (Generate.log st)))
    /\ (forall file foods,
           In (file, foods) (Generate.checkpoints (Generate.log st)) ->
           exists n,
             file = Generate.checkpoint_file n
             /\ (n mod 5 = 0)%nat
             /\ (1 <= n <= Generate.iteration st)%nat
             /\ foods <> []
             /\ foods `prefix_of` Generate.generated_foods st).
Proof.
  intros json_loads fuel replies st. subst st. unfold Generate.main.
  apply (run_invariant json_loads
           (fun st =>
              NoDup (map fst (Generate.checkpoints (Generate.log st)))
              /\ forall file foods,
                  In (file, foods) (Generate.checkpoints (Generate.log st)) ->
                  exists n,
                    file = Generate.checkpoint_file n
                    /\ (n mod 5 = 0)%nat
                    /\ (1 <= n <= Generate.iteration st)%nat
                    /\ foods <> []
                    /\ foods `prefix_of` Generate.generated_foods st)).
  - split; [constructor | intros file foods []].
  - intros st r H. now apply step_snapshots.
Qed.

Lemma checkpoints_are_snapshots_witness :
  exists n,
    "generated_foods_iter_5.json" = Generate.checkpoint_file n
    /\ (n mod 5 = 0)%nat
    /\ (1 <= n <= Generate.iteration
                    (Generate.main Generate.bar_json 5
                       (Generate.always (Generate.Text Generate.bar_line))).1)%nat
    /\ Generate.generated_foods
         (Generate.main Generate.bar_json 5
            (Generate.always (Generate.Text Generate.bar_line))).1 <> []
    /\ Generate.generated_foods
         (Generate.main Generate.bar_json 5
            (Generate.always (Generate.Text Generate.bar_line))).1
         `prefix_of` Generate.generated_foods
                       (Generate.main Generate.bar_json 5
                          (Generate.always (Generate.Text Generate.bar_line))).1.
Proof.
  apply (proj2 (checkpoints_are_snapshots Generate.bar_json 5
                  (Generate.always (Generate.Text Generate.bar_line)))).
  vm_compute. left. reflexivity.
Defined.

(** ** The records and the SQL text *)

Section Records.
Import Generate.

Lemma get_stripped_none f key dflt :
  get_stripped f key dflt = None
  <-> exists v, f !! key = Some v /\ forall s, v <> JStr s.
Proof.
  unfold get_stripped. destruct (f !! key) as [[|s|z|t]|].
  - split; [intros _ | reflexivity]. exists JNull. split; [reflexivity | discriminate].
  - split; [discriminate|]. intros (v & [= <-] & H). now destruct (H s).
  - split; [intros _ | reflexivity]. exists (JInt z). split; [reflexivity | discriminate].
  - split; [intros _ | reflexivity]. exists (JOther t). split; [reflexivity | discriminate].
  - split; [discriminate|]. intros (v & H & _). discriminate.
Qed.

Lemma read_literal_doubled cs rest :
  (forall t, rest <> "'"%char :: t) ->
  read_literal (flat_map (fun c => if Ascii.eqb c "'" then ["'"; "'"]%char else [c]) cs
                  ++ "'"%char :: rest)%list
  = Some (cs, rest).
Proof.
  intros Hrest. induction cs as [|c cs IH].
  - simpl. destruct rest as [|c' t]; [reflexivity|].
    destruct (Ascii.eqb_spec c' "'") as [->|_]; [now destruct (Hrest t) | reflexivity].
  - cbn [flat_map]. destruct (Ascii.eqb_spec c "'") as [->|Hc].
    + cbn [chars list_ascii_of_string app read_literal Ascii.eqb Bool.eqb].
      now rewrite IH.
    + cbn [app read_literal]. rewrite (proj2 (Ascii.eqb_neq c "'") Hc). now rewrite IH.
Qed.

Lemma read_literal_escaped s rest :
  (forall t, rest <> "'"%char :: t) ->
  read_literal (chars (escape_sql_string (Some s)) ++ "'"%char :: rest)%list
  = Some (chars s, rest).
Proof.
  intros Hrest. unfold escape_sql_string. rewrite replace_chars.
  now apply (read_literal_doubled (chars s) rest).
Qed.

(** [rstrip(',')] takes the one comma that ends a tuple. *)
Lemma rstrip_commas_tuple s : rstrip_commas (s ++ "),") = s ++ ")".
Proof.
  unfold rstrip_commas. rewrite chars_app, rev_app_distr. simpl.
  rewrite rev_involutive. apply chars_inj. now rewrite chars_text, chars_app.
Qed.

Lemma join_lines_snoc l y :
  join_lines (l ++ [y])%list
  = match l with [] => y | _ => join_lines l ++ newline ++ y end.
Proof.
  destruct l as [|x t]; [reflexivity|]. simpl. now rewrite fold_left_app.
Qed.

Lemma string_app_assoc (a b c : string) : (a ++ b) ++ c = a ++ (b ++ c).
Proof. apply chars_inj. now rewrite !chars_app, app_assoc. Qed.

Lemma category_counts_from foods : forall (counts : gmap string nat) c,
  fold_left (fun counts f =>
               <[category f := default 0 (counts !! category f) + 1]> counts)
            foods counts !! c
  = (let n := length (List.filter (fun f => String.eqb (category f) c) foods) in
     match counts !! c with
     | Some k => Some (k + n)
     | None => if Nat.eqb n 0 then None else Some n
     end).
Proof.
  induction foods as [|f t IH]; intros counts c; simpl.
  - destruct (counts !! c); [f_equal; lia | reflexivity].
  - rewrite IH. cbv zeta. destruct (String.eqb_spec (category f) c) as [->|Hne].
    + rewrite lookup_insert_eq. simpl.
      destruct (counts !! c); simpl; f_equal; lia.
    + rewrite lookup_insert_ne by exact Hne. reflexivity.
Qed.

End Records.

(** X14: a candidate becomes a record unless its brand, serving unit or
    category is present and not a string (a null or a number there discards
    the candidate).  The record has the given name, the confidence
    'estimated' and the popularity 50; a text field that is absent gets its
    default ('Generic', 'g', 'Unknown') and one that is present is stripped;
    no number of the record is negative, and a number whose field is absent
    is the fallback, 100 for the serving size and 0 otherwise. *)
Theorem clean_food_fields :
  forall (f : Generate.food) food_name,
    (Generate.clean_food f food_name = None
     <-> exists key v,
         In key ["brand"; "serving_unit"; "category"]
         /\ f !! key = Some v /\ forall s, v <> Generate.JStr s)
    /\ (forall r,
           Generate.clean_food f food_name = Some r ->
           Generate.name r = food_name
           /\ Generate.confidence r = "estimated"
           /\ Generate.popularity r = 50%Z
           /\ Generate.brand r
              = match f !! "brand" with Some (Generate.JStr s) => strip s | _ => "Generic" end
           /\ Generate.serving_unit r
              = match f !! "serving_unit" with Some (Generate.JStr s) => strip s | _ => "g" end
           /\ Generate.category r
              = match f !! "category" with Some (Generate.JStr s) => strip s | _ => "Unknown" end
           /\ Forall Generate.number_nonneg
                [Generate.calories r; Generate.protein r; Generate.carbs r; Generate.fat r;
                 Generate.fiber r; Generate.sugar r; Generate.serving_size r]
           /\ (f !! "serving_size" = None -> Generate.serving_size r = Generate.NInt 100)
           /\ (f !! "calories" = None -> Generate.calories r = Generate.NInt 0)).
Proof.
  intros f food_name. split.
  - unfold Generate.clean_food.
    pose proof (get_stripped_none f "brand" "Generic") as Hb.
    pose proof (get_stripped_none f "serving_unit" "g") as Hu.
    pose proof (get_stripped_none f "category" "Unknown") as Hc.
    destruct (Generate.get_stripped f "brand" "Generic") as [b|].
    2:{ split; [intros _|reflexivity]. destruct (proj1 Hb eq_refl) as (v & Hv & Hs).
        exists "brand", v. simpl. auto. }
    destruct (Generate.get_stripped f "serving_unit" "g") as [u|].
    2:{ split; [intros _|reflexivity]. destruct (proj1 Hu eq_refl) as (v & Hv & Hs).
        exists "serving_unit", v. simpl. auto. }
    destruct (Generate.get_stripped f "category" "Unknown") as [c|].
    2:{ split; [intros _|reflexivity]. destruct (proj1 Hc eq_refl) as (v & Hv & Hs).
        exists "category", v. simpl. auto. }
    split; [discriminate|]. intros (key & v & Hk & Hv & Hs). simpl in Hk.
    destruct Hk as [<-|[<-|[<-|[]]]].
    + assert (Some b = None) by (apply Hb; eauto). discriminate.
    + assert (Some u = None) by (apply Hu; eauto). discriminate.
    + assert (Some c = None) by (apply Hc; eauto). discriminate.
  - intros r. unfold Generate.clean_food, Generate.get_stripped, Generate.get.
    destruct (f !! "brand") as [[|b|?|?]|]; try discriminate;
      destruct (f !! "serving_unit") as [[|u|?|?]|]; try discriminate;
      destruct (f !! "category") as [[|c|?|?]|]; try discriminate;
      intros [= <-]; cbn [Generate.name Generate.brand Generate.calories Generate.protein
                            Generate.carbs Generate.fat Generate.fiber Generate.sugar
                            Generate.serving_size Generate.serving_unit Generate.category
                            Generate.confidence Generate.popularity];
      (repeat split; try reflexivity;
       [ repeat constructor; apply clean_numeric_value_default; lia
       | intros ->; reflexivity
       | intros ->; reflexivity ]).
Qed.

Lemma clean_food_fields_witness :
  Generate.name (Generate.FoodRecord "Bar" "Generic" (Generate.NInt 0) (Generate.NInt 0)
                   (Generate.NInt 0) (Generate.NInt 0) (Generate.NInt 0) (Generate.NInt 0)
                   (Generate.NInt 100) "g" "Unknown" "estimated" 50) = "Bar".
Proof.
  exact (proj1 (proj2 (clean_food_fields ∅ "Bar") _ eq_refl)).
Defined.

(** X15: read back as a SQL string literal, a quoted field gives the
    field's text and ends at its closing quote, whatever the text and
    whatever follows that is not a quote; in a tuple the name, read after
    the opening parenthesis, comes back as it was and the reader stands at
    the comma after it. *)
Theorem sql_literal_round_trip :
  (forall s rest,
      (forall t, rest <> "'"%char :: t) ->
      Generate.read_quoted (chars (Generate.quoted s) ++ rest)%list = Some (chars s, rest))
  /\ (forall float_str f,
         exists rest,
           chars (Generate.sql_line float_str f)
           = ("("%char :: chars (Generate.quoted (Generate.name f))
                ++ ","%char :: " "%char :: rest)%list
           /\ Generate.read_quoted (chars (Generate.quoted (Generate.name f))
                                      ++ ","%char :: " "%char :: rest)%list
              = Some (chars (Generate.name f), ","%char :: " "%char :: rest)).
Proof.
  assert (H : forall s rest,
             (forall t, rest <> "'"%char :: t) ->
             Generate.read_quoted (chars (Generate.quoted s) ++ rest)%list
             = Some (chars s, rest)).
  { intros s rest Hrest. unfold Generate.quoted.
    rewrite !chars_app. change (chars "'") with ["'"%char]. rewrite <- !app_assoc.
    change (Generate.read_literal
              (chars (Generate.escape_sql_string (Some s)) ++ "'"%char :: rest)%list
            = Some (chars s, rest)).
    now apply read_literal_escaped. }
  split; [exact H|].
  intros float_str f. unfold Generate.sql_line.
  eexists. split.
  - rewrite chars_app, chars_app, chars_app. reflexivity.
  - apply H. intros t. discriminate.
Qed.

Lemma sql_literal_round_trip_witness :
  Generate.read_quoted (chars (Generate.quoted "O'Brien's Bar") ++ chars ", 50)")%list
  = Some (chars "O'Brien's Bar", chars ", 50)").
Proof.
  apply (proj1 sql_literal_round_trip "O'Brien's Bar" (chars ", 50)")).
  intros t. discriminate.
Defined.

(** X16: the SQL statement written for a non-empty result set is the
    header, then the tuples of the records one per line, each with its
    trailing comma except the last, whose comma is replaced by the
    semicolon that ends the statement. *)
Theorem sql_output_shape :
  forall float_str foods f,
    exists tuple,
      Generate.sql_line float_str f = tuple ++ ","
      /\ Generate.sql_output float_str (foods ++ [f])%list
         = Generate.sql_header
             ++ Generate.join_lines (map (Generate.sql_line float_str) foods ++ [tuple])%list
             ++ ";".
Proof.
  intros float_str foods f.
  assert (Hl : exists body, Generate.sql_line float_str f = body ++ "),").
  { unfold Generate.sql_line. eexists.
    repeat rewrite <- string_app_assoc. reflexivity. }
  destruct Hl as (body & Hl). exists (body ++ ")"). split.
  - rewrite Hl, string_app_assoc. reflexivity.
  - unfold Generate.sql_output. rewrite map_app. simpl map.
    rewrite !join_lines_snoc, Hl.
    destruct (map (Generate.sql_line float_str) foods) as [|x t].
    + rewrite <- string_app_assoc, rstrip_commas_tuple.
      now rewrite !string_app_assoc.
    + set (j := Generate.join_lines (x :: t)).
      replace (Generate.sql_header ++ j ++ Generate.newline ++ body ++ "),")
        with ((Generate.sql_header ++ j ++ Generate.newline ++ body) ++ "),")
        by (now rewrite !string_app_assoc).
      rewrite rstrip_commas_tuple. now rewrite !string_app_assoc.
Qed.

(** X17: in the category breakdown the count of a category is the number
    of accepted records of that category, and a category without a record
    is not listed. *)
Theorem category_counts_lookup :
  forall foods c,
    Generate.category_counts foods !! c
    = (let n := length (List.filter (fun f => String.eqb (Generate.category f) c) foods) in
       if Nat.eqb n 0 then None else Some n).
Proof.
  intros foods c. unfold Generate.category_counts.
  rewrite category_counts_from. now rewrite lookup_empty.
Qed.

(** ** [float] on decimal numerals without sign or exponent *)

Section Numerals.

Lemma digit_not_underscore c : is_digit c = true -> Ascii.eqb c "_" = false.
Proof.
  intros H. destruct (Ascii.eqb_spec c "_") as [->|]; [discriminate H | reflexivity].
Qed.

Lemma digit_is_numeric c : is_digit c = true -> Generate.is_numeric_char c = true.
Proof. intros H. unfold Generate.is_numeric_char. now rewrite H. Qed.

Lemma numeric_not_underscore c :
  Generate.is_numeric_char c = true -> Ascii.eqb c "_" = false.
Proof.
  intros H. destruct (Ascii.eqb_spec c "_") as [->|]; [discriminate H | reflexivity].
Qed.

Lemma numeric_not_digit c :
  Generate.is_numeric_char c = true -> is_digit c = false -> c = "."%char.
Proof.
  unfold Generate.is_numeric_char. intros H Hd. rewrite Hd in H. simpl in H.
  now apply Ascii.eqb_eq.
Qed.

Lemma underscores_ok_none prev cs :
  prev <> Some "_"%char ->
  Forall (fun c => Ascii.eqb c "_" = false) cs ->
  PyFloat.underscores_ok prev cs = true.
Proof.
  intros Hp H. revert prev Hp. induction H as [|c t Hc _ IH]; intros prev Hp; simpl.
  - destruct prev as [p|]; [|reflexivity].
    destruct (Ascii.eqb_spec p "_") as [->|Hne]; [congruence|].
    destruct p as [[] [] [] [] [] [] [] []]; try reflexivity. congruence.
  - rewrite Hc. rewrite IH.
    + destruct prev as [p|]; [|reflexivity].
      destruct p as [[] [] [] [] [] [] [] []]; try reflexivity. congruence.
    + intros [= ->]. discriminate Hc.
Qed.

Lemma drop_underscores_none cs :
  Forall (fun c => Ascii.eqb c "_" = false) cs -> PyFloat.drop_underscores cs = cs.
Proof.
  intros H. unfold PyFloat.drop_underscores.
  induction H as [|c t Hc _ IH]; [reflexivity|].
  rewrite filter_cons_True by exact Hc. now rewrite IH.
Qed.

Lemma span_digits_app ds r :
  Forall (fun c => is_digit c = true) ds ->
  match r with [] => True | c :: _ => is_digit c = false end ->
  PyFloat.span_digits (ds ++ r)%list = (ds, r).
Proof.
  intros H Hr. induction H as [|c t Hc _ IH]; cbn [app PyFloat.span_digits].
  - destruct r as [|c t]; [reflexivity|]. cbn [PyFloat.span_digits]. now rewrite Hr.
  - now rewrite Hc, IH.
Qed.

(** A list of digits and points is a run of digits, alone or followed by
    a point and what remains. *)
Lemma numeric_split cs :
  Forall (fun c => Generate.is_numeric_char c = true) cs ->
  exists ds t,
    Forall (fun c => is_digit c = true) ds
    /\ (cs = ds \/ (cs = (ds ++ "."%char :: t)%list
                    /\ Forall (fun c => Generate.is_numeric_char c = true) t)).
Proof.
  intros H. induction H as [|c t Hc Ht IH].
  - exists [], []. split; [constructor | now left].
  - destruct (is_digit c) eqn:Hd.
    + destruct IH as (ds & t' & Hds & [->|[-> Ht']]).
      * exists (c :: ds), []. split; [now constructor | now left].
      * exists (c :: ds), t'. split; [now constructor | right; split; [reflexivity | exact Ht']].
    + apply numeric_not_digit in Hc as ->; [|exact Hd].
      exists [], t. split; [constructor | right; split; [reflexivity | exact Ht]].
Qed.

(** What [float] makes of a text of digits and points. *)
Lemma parse_numeric_text cs :
  Forall (fun c => Generate.is_numeric_char c = true) cs ->
  PyFloat.parse (text cs) = PyFloat.parse_number false cs.
Proof.
  intros H. unfold PyFloat.parse. rewrite chars_text.
  assert (Hsp : Forall (fun c => is_space c = false) cs).
  { eapply Forall_impl; [exact H|]. intros c. apply numeric_not_space. }
  assert (Hu : Forall (fun c => Ascii.eqb c "_" = false) cs).
  { eapply Forall_impl; [exact H|]. intros c. apply numeric_not_underscore. }
  rewrite (lstrip_id _ Hsp), (rstrip_id _ Hsp).
  rewrite underscores_ok_none by (congruence || exact Hu).
  rewrite (drop_underscores_none _ Hu).
  destruct cs as [|c t]; [reflexivity|].
  inversion H as [|? ? Hc _]; subst.
  destruct (parse_numeric_head false c t Hc) as [-> ->]. reflexivity.
Qed.

Lemma parse_number_digits neg ds :
  Forall (fun c => is_digit c = true) ds -> ds <> [] ->
  PyFloat.parse_number neg ds
  = Some (PyFloat.of_decimal neg (PyFloat.digits_value ds) 0).
Proof.
  intros H Hne. unfold PyFloat.parse_number.
  rewrite <- (app_nil_r ds) at 1. rewrite (span_digits_app ds [] H I).
  rewrite app_nil_r. destruct ds; [congruence | reflexivity].
Qed.

Lemma parse_number_point neg ip fp :
  Forall (fun c => is_digit c = true) ip ->
  Forall (fun c => is_digit c = true) fp ->
  (ip ++ fp)%list <> [] ->
  PyFloat.parse_number neg (ip ++ "."%char :: fp)%list
  = Some (PyFloat.of_decimal neg (PyFloat.digits_value (ip ++ fp))
                             (0 - Z.of_nat (length fp))).
Proof.
  intros Hi Hf Hne. unfold PyFloat.parse_number.
  rewrite (span_digits_app ip ("."%char :: fp) Hi eq_refl).
  rewrite <- (app_nil_r fp) at 1. rewrite (span_digits_app fp [] Hf I).
  destruct (ip ++ fp)%list; [congruence | reflexivity].
Qed.

Lemma parse_number_two_points neg ip fp rest :
  Forall (fun c => is_digit c = true) ip ->
  Forall (fun c => is_digit c = true) fp ->
  PyFloat.parse_number neg (ip ++ "."%char :: fp ++ "."%char :: rest)%list = None.
Proof.
  intros Hi Hf. unfold PyFloat.parse_number.
  rewrite (span_digits_app ip ("."%char :: fp ++ "."%char :: rest) Hi eq_refl).
  rewrite (span_digits_app fp ("."%char :: rest) Hf eq_refl).
  destruct (ip ++ fp)%list; reflexivity.
Qed.

Lemma parse_number_no_digit neg cs :
  Forall (fun c => Generate.is_numeric_char c = true) cs ->
  Forall (fun c => is_digit c = false) cs ->
  PyFloat.parse_number neg cs = None.
Proof.
  intros Hn Hd. unfold PyFloat.parse_number.
  destruct cs as [|c t]; [reflexivity|].
  inversion Hn as [|? ? Hc Ht]; inversion Hd as [|? ? Hdc Hdt]; subst.
  apply numeric_not_digit in Hc as ->; [|exact Hdc]. simpl.
  destruct t as [|c' t']; [reflexivity|].
  inversion Hdt as [|? ? Hdc' _]; subst. simpl. rewrite Hdc'. reflexivity.
Qed.

Lemma filter_digits_app ds r :
  Forall (fun c => is_digit c = true) ds ->
  List.filter (Ascii.eqb ".") (ds ++ r)%list = List.filter (Ascii.eqb ".") r.
Proof.
  intros H. induction H as [|c t Hc _ IH]; cbn [app List.filter]; [reflexivity|].
  destruct (Ascii.eqb_spec "." c) as [<-|_]; [discriminate Hc | exact IH].
Qed.

Lemma parse_number_many_points neg cs :
  Forall (fun c => Generate.is_numeric_char c = true) cs ->
  (2 <= length (List.filter (Ascii.eqb ".") cs))%nat ->
  PyFloat.parse_number neg cs = None.
Proof.
  intros Hn Hp.
  destruct (numeric_split cs Hn) as (ip & t & Hi & [->|[-> Ht]]).
  - rewrite <- (app_nil_r ip), filter_digits_app in Hp by exact Hi. simpl in Hp. lia.
  - rewrite filter_digits_app in Hp by exact Hi. simpl in Hp.
    destruct (numeric_split t Ht) as (fp & rest & Hf & [->|[-> _]]).
    + rewrite <- (app_nil_r fp), filter_digits_app in Hp by exact Hf. simpl in Hp. lia.
    + now apply parse_number_two_points.
Qed.

Lemma pos_digits_are_digits fuel : forall n acc,
  Forall (fun c => is_digit c = true) acc ->
  Forall (fun c => is_digit c = true) (pos_digits fuel n acc).
Proof.
  induction fuel as [|fuel IH]; intros n acc H; simpl; [exact H|].
  assert (Hd : is_digit (digit_char (n mod 10)) = true).
  { assert (Hlt : (n mod 10 < 10)%N) by (apply N.mod_lt; lia).
    unfold digit_char. rewrite <- (N2Nat.id (n mod 10)) in *.
    set (k := N.to_nat (n mod 10)) in *. assert (Hk : (k < 10)%nat) by lia.
    clearbody k. clear Hlt. do 10 (destruct k as [|k]; [reflexivity|]). lia. }
  destruct (n <? 10)%N; [now constructor | apply IH; now constructor].
Qed.

Lemma pos_digits_nonempty fuel n acc : pos_digits (S fuel) n acc <> [].
Proof.
  revert n acc. induction fuel as [|fuel IH]; intros n acc; simpl.
  - destruct (n <? 10)%N; discriminate.
  - destruct (n <? 10)%N; [discriminate|]. apply IH.
Qed.

Lemma str_of_N_digits n :
  Forall (fun c => is_digit c = true) (chars (str_of_N n)) /\ chars (str_of_N n) <> [].
Proof.
  unfold str_of_N. rewrite chars_text. split.
  - apply pos_digits_are_digits. constructor.
  - apply pos_digits_nonempty.
Qed.

Lemma filter_all {A} (f : A -> bool) l :
  Forall (fun x => f x = true) l -> List.filter f l = l.
Proof. intros H. induction H as [|x t Hx _ IH]; simpl; [reflexivity | now rewrite Hx, IH]. Qed.

End Numerals.

Section NumeralValues.

Lemma after_point_digits ds r :
  Forall (fun c => is_digit c = true) ds ->
  Generate.after_point (ds ++ r)%list = Generate.after_point r.
Proof.
  intros H. induction H as [|c t Hc _ IH]; cbn [app Generate.after_point]; [reflexivity|].
  destruct (Ascii.eqb_spec c ".") as [->|_]; [discriminate Hc | exact IH].
Qed.

Lemma filter_digit_digits ds r :
  Forall (fun c => is_digit c = true) ds ->
  List.filter is_digit (ds ++ r)%list = (ds ++ List.filter is_digit r)%list.
Proof.
  intros H. induction H as [|c t Hc _ IH]; cbn [app List.filter]; [reflexivity|].
  now rewrite Hc, IH.
Qed.

Lemma existsb_digit_digits ds r :
  Forall (fun c => is_digit c = true) ds ->
  existsb is_digit (ds ++ r)%list
  = match ds with [] => existsb is_digit r | _ => true end.
Proof.
  intros H. destruct H as [|c t Hc _]; [reflexivity|].
  cbn [app existsb]. now rewrite Hc.
Qed.

Lemma digits_only ds :
  Forall (fun c => is_digit c = true) ds ->
  Generate.point_count ds = 0
  /\ Generate.after_point ds = []
  /\ List.filter is_digit ds = ds
  /\ existsb is_digit ds = match ds with [] => false | _ => true end.
Proof.
  intros H. unfold Generate.point_count.
  pose proof (filter_digits_app ds [] H) as H1.
  pose proof (after_point_digits ds [] H) as H2.
  pose proof (filter_digit_digits ds [] H) as H3.
  pose proof (existsb_digit_digits ds [] H) as H4.
  rewrite app_nil_r in H1, H2, H3, H4. simpl in H1, H2, H3, H4.
  rewrite app_nil_r in H3. rewrite H1, H2, H3, H4. repeat split; reflexivity.
Qed.

(** What [float] makes of a text of digits and points: a number exactly
    when the text has a digit and at most one point. *)
Lemma parse_numeric_value cs :
  Forall (fun c => Generate.is_numeric_char c = true) cs ->
  PyFloat.parse (text cs)
  = if existsb is_digit cs && (Generate.point_count cs <=? 1)%nat
    then Some (PyFloat.of_decimal false (PyFloat.digits_value (List.filter is_digit cs))
                                  (0 - Z.of_nat (length (Generate.after_point cs))))
    else None.
Proof.
  intros H. rewrite (parse_numeric_text cs H).
  destruct (numeric_split cs H) as (ip & t & Hi & [->|[-> Ht]]).
  - (* digits only *)
    destruct (digits_only ip Hi) as (-> & -> & -> & ->).
    destruct ip as [|c ip']; [reflexivity|].
    now rewrite (parse_number_digits false (c :: ip') Hi).
  - destruct (numeric_split t Ht) as (fp & rest & Hf & [->|[-> Hrest]]).
    + (* one point *)
      destruct (digits_only fp Hf) as (Hp & _ & Hfd & He).
      unfold Generate.point_count in *.
      rewrite existsb_digit_digits, filter_digits_app, filter_digit_digits,
        after_point_digits by exact Hi.
      cbn [List.filter existsb Generate.after_point].
      change (is_digit ".") with false. change (Ascii.eqb "." ".") with true.
      cbv iota. cbn [length orb]. rewrite Hp, Hfd, He.
      destruct ip as [|a ip'].
      * destruct fp as [|b fp'].
        -- reflexivity.
        -- now rewrite (parse_number_point false [] (b :: fp') Hi Hf).
      * now rewrite (parse_number_point false (a :: ip') fp Hi Hf).
    + (* two points or more *)
      rewrite (parse_number_two_points false ip fp rest Hi Hf).
      unfold Generate.point_count. rewrite filter_digits_app by exact Hi.
      cbn [List.filter]. change (Ascii.eqb "." ".") with true. cbv iota.
      rewrite filter_digits_app by exact Hf.
      cbn [List.filter]. change (Ascii.eqb "." ".") with true. cbv iota.
      cbn [length]. now rewrite andb_false_r.
Qed.

Lemma filter_numeric_Forall cs :
  Forall (fun c => Generate.is_numeric_char c = true)
         (List.filter Generate.is_numeric_char cs).
Proof.
  apply Forall_forall. intros c Hc. now apply list_elem_of_In, filter_In in Hc as [_ Hc].
Qed.

Lemma filter_numeric_digits ds :
  Forall (fun c => is_digit c = true) ds -> List.filter Generate.is_numeric_char ds = ds.
Proof.
  intros H. apply filter_all. eapply Forall_impl; [exact H|]. intros c. apply digit_is_numeric.
Qed.

End NumeralValues.

(** X18: for a value that is not [None], [clean_numeric_value] keeps the
    digits and points of [str(value)] and returns a float exactly when they
    hold at least one digit and at most one point: the float nearest to the
    decimal numeral they spell, the digits after the point being its
    fraction.  With no digit, or with two points or more, and for [None], it
    returns the fallback. *)
Theorem clean_numeric_value_spec :
  forall value default,
    Generate.clean_numeric_value value default
    = match value with
      | Generate.JNull => Generate.NInt default
      | _ =>
          let cleaned := List.filter Generate.is_numeric_char (chars (Generate.str value)) in
          if existsb is_digit cleaned && (Generate.point_count cleaned <=? 1)%nat
          then Generate.NFloat
                 (PyFloat.of_decimal false
                    (PyFloat.digits_value (List.filter is_digit cleaned))
                    (0 - Z.of_nat (length (Generate.after_point cleaned))))
          else Generate.NInt default
      end.
Proof.
  assert (H : forall s default,
             (let cleaned := Generate.strip_non_numeric s in
              if truthy cleaned then
                match PyFloat.parse cleaned with
                | Some f => Generate.NFloat f
                | None => Generate.NInt default
                end
              else Generate.NInt default)
             = (let cleaned := List.filter Generate.is_numeric_char (chars s) in
                if existsb is_digit cleaned && (Generate.point_count cleaned <=? 1)%nat
                then Generate.NFloat
                       (PyFloat.of_decimal false
                          (PyFloat.digits_value (List.filter is_digit cleaned))
                          (0 - Z.of_nat (length (Generate.after_point cleaned))))
                else Generate.NInt default)).
  { intros s default. cbv zeta. unfold Generate.strip_non_numeric.
    rewrite (parse_numeric_value _ (filter_numeric_Forall (chars s))).
    destruct (List.filter Generate.is_numeric_char (chars s)) as [|c t]; [reflexivity|].
    change (truthy (text (c :: t))) with true. cbv iota.
    now destruct (_ && _). }
  intros value default. destruct value; [reflexivity | apply H ..].
Qed.

(** X19: an integer value gives the float of its absolute value, whatever
    the fallback: the minus sign of a negative integer is dropped. *)
Theorem clean_numeric_value_integer :
  forall z default,
    Generate.clean_numeric_value (Generate.JInt z) default
    = Generate.NFloat (PyFloat.of_Z (Z.abs z)).
Proof.
  intros z default. unfold Generate.clean_numeric_value, Generate.str.
  assert (Hs : Generate.strip_non_numeric (str_of_Z z) = str_of_N (Z.abs_N z)).
  { unfold Generate.strip_non_numeric. apply chars_inj. rewrite chars_text.
    destruct z as [|p|p]; simpl str_of_Z.
    - apply filter_numeric_digits, str_of_N_digits.
    - apply filter_numeric_digits, str_of_N_digits.
    - change (chars (String "-" (str_of_N (N.pos p))))
        with ("-"%char :: chars (str_of_N (N.pos p))).
      cbn [List.filter]. change (Generate.is_numeric_char "-") with false. cbv iota.
      apply filter_numeric_digits, str_of_N_digits. }
  cbv zeta. rewrite Hs.
  destruct (str_of_N_digits (Z.abs_N z)) as [Hd Hne].
  assert (Ht : truthy (str_of_N (Z.abs_N z)) = true).
  { destruct (str_of_N (Z.abs_N z)); [now destruct Hne | reflexivity]. }
  rewrite Ht, <- (text_chars (str_of_N (Z.abs_N z))).
  rewrite parse_numeric_text
    by (eapply Forall_impl; [exact Hd | intros c; apply digit_is_numeric]).
  rewrite (parse_number_digits false _ Hd Hne), str_of_N_value.
  unfold PyFloat.of_Z. f_equal. f_equal.
  - symmetry. apply Z.ltb_ge, Z.abs_nonneg.
  - destruct z; reflexivity.
Qed.

(** X20: a nutrient value whose characters other than commas are digits
    and points is converted exactly when it has a digit and at most one
    point, to the float nearest to the decimal numeral it spells without its
    commas, wherever the commas stand; otherwise it stays the raw string. *)
Theorem normalize_numerals :
  forall raw,
    let cs := List.filter (fun c => negb (Ascii.eqb c ",")) (chars raw) in
    Forall (fun c => Generate.is_numeric_char c = true) cs ->
    Clean.normalize raw
    = if existsb is_digit cs && (Generate.point_count cs <=? 1)%nat
      then Clean.VFloat
             (PyFloat.of_decimal false (PyFloat.digits_value (List.filter is_digit cs))
                                 (0 - Z.of_nat (length (Generate.after_point cs))))
      else Clean.VStr raw.
Proof.
  intros raw cs H. unfold Clean.normalize.
  assert (Hr : replace "," "" raw = text cs).
  { apply chars_inj. now rewrite replace_empty_chars, chars_text. }
  rewrite Hr, (parse_numeric_value cs H). now destruct (_ && _).
Qed.

Lemma normalize_numerals_witness :
  Clean.normalize "1,234.5" = Clean.VFloat (PyFloat.of_decimal false 12345 (-1)).
Proof.
  apply (normalize_numerals "1,234.5"). repeat constructor.
Defined.

(** X21: a line of the response that does not both start with an opening
    brace and end with a closing brace, or that [json.loads] rejects, is
    dropped on its own: the lines before and after it are handled as if it
    were not there. *)
Theorem bad_lines_are_skipped :
  forall json_loads before line after acc,
    startswith "{" (strip line) && endswith "}" (strip line) = false
    \/ json_loads (strip line) = None ->
    fold_left (Generate.consider json_loads) (before ++ line :: after)%list acc
    = fold_left (Generate.consider json_loads) (before ++ after)%list acc.
Proof.
  intros json_loads before line after acc H. rewrite !fold_left_app. simpl. f_equal.
  unfold Generate.consider.
  destruct (fold_left _ before acc) as [[foods names] count].
  destruct H as [-> | H]; [reflexivity|].
  destruct (_ && _); [now rewrite H | reflexivity].
Qed.

Lemma bad_lines_are_skipped_witness :
  fold_left (Generate.consider Generate.bar_json)
            ([Generate.bar_line] ++ "Here are 10 foods:" :: [Generate.bar_line])%list
            ([], ∅, 0)
  = fold_left (Generate.consider Generate.bar_json)
              ([Generate.bar_line] ++ [Generate.bar_line])%list ([], ∅, 0).
Proof.
  apply (bad_lines_are_skipped Generate.bar_json [Generate.bar_line]
           "Here are 10 foods:" [Generate.bar_line] ([], ∅, 0)).
  left. reflexivity.
Defined.

Lemma dedup_partition_witness :
  In (Clean2.food_name (Clean2.Row (Some "A") [("Profile #", "2")]))
     (map Clean2.food_name
        (Clean2.remove_duplicates_and_summarize
           [Clean2.Row (Some "A") [("Profile #", "1")];
            Clean2.Row (Some "A") [("Profile #", "2")]]).1).
Proof.
  apply (proj2 (proj2 (dedup_partition
                         [Clean2.Row (Some "A") [("Profile #", "1")];
                          Clean2.Row (Some "A") [("Profile #", "2")]]))).
  left. reflexivity.
Defined.

Lemma summary_reports_removed_rows_witness :
  In (Some "A")
     (map Clean2.s_food_name
        (Clean2.remove_duplicates_and_summarize
           [Clean2.Row (Some "A") [("Profile #", "1")];
            Clean2.Row (Some "A") [("Profile #", "2")]]).2).
Proof.
  apply (proj2 (proj2 (summary_reports_removed_rows
                         [Clean2.Row (Some "A") [("Profile #", "1")];
                          Clean2.Row (Some "A") [("Profile #", "2")]]))).
  simpl. lia.
Defined.
